(** * texera-client: the plan converter and the export correlator

    A shallow embedding of [client/converter.py] and of the command handlers
    and event dispatcher of [client/texera_python_client.py], followed by the
    properties of the specification that were checked against them.

    Conventions of the embedding.
    - A value produced by [json.loads] is a [json] tree.  Numbers are the
      integers ([JInt]); float literals are not part of the model, except for
      the quotient [dur_ms / 1000], which is computed as a correctly rounded
      binary64 value (see [Module Float]).
    - A Python [dict] is an association list in insertion order; every
      operation reads the first binding of a key, so that a list with a
      repeated key behaves as the dict holding its first bindings.
    - A Python exception is a value of [exn]; a computation that may raise
      returns a [result].
    - [json.loads], the iteration order of a [set] and the file system are
      interfaces ([Runtime], [FileSystem]): the code is verified for every
      implementation of them. *)

From Stdlib Require Import ZArith String Ascii List Bool Lia.
From Stdlib Require Import Decimal DecimalString.
From Stdlib Require DecimalZ DecimalPos.
From stdpp Require Import base option list gmap strings.

(** ** Python values and exceptions *)

Module Py.

Inductive exn : Type :=
  | KeyError (key : string)
  | TypeError
  | AttributeError
  | StopIteration
  | JSONDecodeError
  | OverflowError
  | OSError (errno : Z)
  | UnicodeDecodeError.

Inductive result (A : Type) : Type :=
  | Ok (a : A)
  | Raise (e : exn).
Arguments Ok {A} a.
Arguments Raise {A} e.

Definition rbind {A B} (r : result A) (k : A → result B) : result B :=
  match r with
  | Ok a => k a
  | Raise e => Raise e
  end.

Declare Scope py_scope.
Delimit Scope py_scope with py.
Notation "'let*' x := e 'in' k" := (rbind e (λ x, k))
  (at level 10, x pattern, e at level 100, k at level 200) : py_scope.
Local Open Scope py_scope.

Definition is_ok {A} (r : result A) : bool :=
  match r with Ok _ => true | Raise _ => false end.

Unset Elimination Schemes.
Inductive json : Type :=
  | JNull
  | JBool (b : bool)
  | JInt (n : Z)
  | JStr (s : string)
  | JArr (items : list json)
  | JObj (fields : list (string * json)).
Set Elimination Schemes.

(** [d.get(k)] at the level of the binding list: the first binding wins. *)
Fixpoint dict_lookup (k : string) (fields : list (string * json)) : option json :=
  match fields with
  | [] => None
  | (k', v) :: rest => if String.eqb k k' then Some v else dict_lookup k rest
  end.

(** [d[k] = v]: an existing key keeps its position, a new key goes last. *)
Fixpoint dict_set (k : string) (v : json) (fields : list (string * json))
    : list (string * json) :=
  match fields with
  | [] => [(k, v)]
  | (k', v') :: rest =>
      if String.eqb k k' then (k', v) :: rest else (k', v') :: dict_set k v rest
  end.

Definition int_of_bool (b : bool) : Z := if b then 1 else 0.

(** Python's [==] on decoded JSON: [bool] is a subclass of [int], lists are
    compared position by position, dicts binding by binding whatever their
    order. *)
Fixpoint py_eq (a b : json) {struct a} : bool :=
  match a, b with
  | JNull, JNull => true
  | JBool x, JBool y => Bool.eqb x y
  | JBool x, JInt n => Z.eqb (int_of_bool x) n
  | JInt m, JBool y => Z.eqb m (int_of_bool y)
  | JInt m, JInt n => Z.eqb m n
  | JStr s, JStr t => String.eqb s t
  | JArr xs, JArr ys =>
      (fix items_eq (xs ys : list json) {struct xs} : bool :=
         match xs, ys with
         | [], [] => true
         | x :: xs', y :: ys' => py_eq x y && items_eq xs' ys'
         | _, _ => false
         end) xs ys
  | JObj fs, JObj gs =>
      Nat.eqb (length fs) (length gs) &&
      (fix fields_in (fs : list (string * json)) {struct fs} : bool :=
         match fs with
         | [] => true
         | (k, v) :: fs' =>
             match dict_lookup k gs with
             | Some w => py_eq v w && fields_in fs'
             | None => false
             end
         end) fs
  | _, _ => false
  end.

(** Truth value of a decoded JSON value ([if not x]). *)
Definition py_truthy (v : json) : bool :=
  match v with
  | JNull => false
  | JBool b => b
  | JInt n => negb (Z.eqb n 0)
  | JStr s => negb (String.eqb s EmptyString)
  | JArr items => negb (Nat.eqb (length items) 0)
  | JObj fields => negb (Nat.eqb (length fields) 0)
  end.

(** A Python [str] is a sequence of code points; the embedding keeps its
    UTF-8 bytes.  A byte [10xxxxxx] continues the code point before it. *)
Definition is_continuation (c : ascii) : bool :=
  let n := N_of_ascii c in (128 <=? n)%N && (n <? 192)%N.

Definition continues (s : string) : bool :=
  match s with
  | String c _ => is_continuation c
  | EmptyString => false
  end.

Fixpoint utf8_chars (s : string) : list string :=
  match s with
  | EmptyString => []
  | String c rest =>
      match utf8_chars rest with
      | ch :: chars =>
          if continues rest then String c ch :: chars
          else String c EmptyString :: ch :: chars
      | [] => [String c EmptyString]
      end
  end.

(** [obj[key]] for a string key. *)
Definition getitem (obj : json) (key : string) : result json :=
  match obj with
  | JObj fields =>
      match dict_lookup key fields with
      | Some v => Ok v
      | None => Raise (KeyError key)
      end
  | _ => Raise TypeError
  end.

(** [obj.get(key, default)]: only a dict has the method. *)
Definition get (obj : json) (key : string) (default : json) : result json :=
  match obj with
  | JObj fields =>
      match dict_lookup key fields with
      | Some v => Ok v
      | None => Ok default
      end
  | _ => Raise AttributeError
  end.

(** [iter(v)]: a list yields its items, a dict its keys, a str its
    characters; nothing else is iterable. *)
Definition py_iter (v : json) : result (list json) :=
  match v with
  | JArr items => Ok items
  | JObj fields => Ok (map (λ kv, JStr kv.1) fields)
  | JStr s => Ok (map JStr (utf8_chars s))
  | _ => Raise TypeError
  end.

(** [len(v)]. *)
Definition py_len (v : json) : result nat :=
  match v with
  | JArr items => Ok (length items)
  | JObj fields => Ok (length fields)
  | JStr s => Ok (length (utf8_chars s))
  | _ => Raise TypeError
  end.

(** [next(x for x in items if test(x))]: the generator is lazy, so the test
    runs on the items up to the first match only, and an exhausted generator
    makes [next] raise [StopIteration]. *)
Fixpoint next_where (test : json → result bool) (items : list json) : result json :=
  match items with
  | [] => Raise StopIteration
  | x :: rest =>
      let* hit := test x in
      if hit then Ok x else next_where test rest
  end.

(** [next(i for i, x in enumerate(items) if test(x))], counting from [i]. *)
Fixpoint next_index_where (test : json → result bool) (i : nat) (items : list json)
    : result nat :=
  match items with
  | [] => Raise StopIteration
  | x :: rest =>
      let* hit := test x in
      if hit then Ok i else next_index_where test (S i) rest
  end.

(** *** Sets of hashable values *)

(** [hash(v)] raises [TypeError] on a list and on a dict. *)
Definition hashable (v : json) : bool :=
  match v with
  | JArr _ | JObj _ => false
  | _ => true
  end.

(** A [set] of decoded JSON values: its members in insertion order, no two
    of them equal under [py_eq]. *)
Definition pyset : Type := list json.

(** [key in so]: a member equal to [key]. *)
Definition set_contains (so : pyset) (key : json) : bool :=
  existsb (λ member, py_eq member key) so.

(** [so.add(key)]: a key equal to a member is not added again. *)
Definition set_add_entry (so : pyset) (key : json) : pyset :=
  if set_contains so key then so else so ++ [key].

(** [so.intersection(others)] for an iterable that is not a set: every key
    of [others] is hashed and looked up in [so]; CPython stops as soon as the
    result is as large as [so]. *)
Fixpoint intersection_loop (so : pyset) (others : list json) (acc : pyset)
    : result pyset :=
  match others with
  | [] => Ok acc
  | key :: rest =>
      if hashable key then
        if set_contains so key then
          let acc' := set_add_entry acc key in
          if (length so <=? length acc')%nat then Ok acc'
          else intersection_loop so rest acc'
        else intersection_loop so rest acc
      else Raise TypeError
  end.

Definition intersection (so : pyset) (other : json) : result pyset :=
  let* others := py_iter other in
  intersection_loop so others [].

(** What the interpreter provides: the JSON decoder, and the order in which
    a set hands out its members (it depends on the hashes, which differ from
    one process to the next for strings). *)
Class Runtime := {
  json_loads : string → result json;
  set_order : pyset → list json;
  set_order_perm : ∀ so, set_order so ≡ₚ so;
}.

End Py.

(** ** Integers, floats and their text *)

Module Float.
Import Py.

(** [str(n)] for an [int]. *)
Definition str_int (n : Z) : string := NilZero.string_of_int (Z.to_int n).

(** [n / d] rounded to the nearest integer, a tie going to the even one
    ([d] positive, [n] not negative). *)
Definition round_half_even (n d : Z) : Z :=
  let q := (n / d)%Z in
  let r := (n mod d)%Z in
  if (2 * r >? d)%Z then (q + 1)%Z
  else if (2 * r =? d)%Z then (if Z.even q then q else (q + 1)%Z)
  else q.

(** A binary64 value: [mantissa * 2 ^ exponent], negated when [negative]. *)
Record float64 := Float64 {
  negative : bool;
  mantissa : Z;
  exponent : Z;
}.

(** The position of the leading bit of [a / b], for positive [a] and [b]. *)
Definition quotient_log2 (a b : Z) : Z :=
  let k := (Z.log2 a - Z.log2 b)%Z in
  let ge := if (0 <=? k)%Z then (b * 2 ^ k <=? a)%Z else (b <=? a * 2 ^ (- k))%Z in
  if ge then k else (k - 1)%Z.

(** [a / b] on two [int]s, for a positive [b]: CPython rounds the exact
    quotient to the nearest binary64 (53 bits, exponent at least -1074, ties
    to even) and raises [OverflowError] beyond the largest one. *)
Definition true_divide (a b : Z) : result float64 :=
  if (a =? 0)%Z then Ok (Float64 false 0 0)
  else
    let n := Z.abs a in
    let e := Z.max (quotient_log2 n b - 52) (-1074) in
    let m :=
      if (0 <=? e)%Z then round_half_even n (b * 2 ^ e)
      else round_half_even (n * 2 ^ (- e)) b in
    if (971 <? e)%Z || ((e =? 971)%Z && (2 ^ 53 <=? m)%Z) then Raise OverflowError
    else Ok (Float64 (a <? 0)%Z m e).

Definition two_digits (n : Z) : string :=
  if (n <? 10)%Z then String "0" (str_int n) else str_int n.

(** [format(x, ".2f")]: the exact value of [x] rounded to two decimals, a
    tie going to the even digit; the sign is kept even in front of 0.00. *)
Definition format_2f (x : float64) : string :=
  let hundredths :=
    if (0 <=? exponent x)%Z then (mantissa x * 2 ^ exponent x * 100)%Z
    else round_half_even (mantissa x * 100) (2 ^ (- exponent x)) in
  ((if negative x then "-" else EmptyString) +:+
   str_int (hundredths / 100) +:+ "." +:+ two_digits (hundredths mod 100))%string.

End Float.

(** ** json.dumps *)

Module Json.
Import Py Float.

Definition quote : ascii := "034"%char.
Definition backslash : ascii := "092"%char.
Definition newline : ascii := "010"%char.

Definition hex_digit (n : N) : ascii :=
  ascii_of_N (if (n <? 10)%N then 48 + n else 87 + n).

(** What [json.dumps(..., ensure_ascii=False)] writes for one byte of a
    string: the quote, the backslash and the control characters are escaped,
    every other byte is copied. *)
Definition escape_char (c : ascii) : string :=
  let n := N_of_ascii c in
  if (n =? 34)%N then String backslash (String quote EmptyString)
  else if (n =? 92)%N then String backslash (String backslash EmptyString)
  else if (n =? 10)%N then String backslash "n"
  else if (n =? 13)%N then String backslash "r"
  else if (n =? 9)%N then String backslash "t"
  else if (n =? 8)%N then String backslash "b"
  else if (n =? 12)%N then String backslash "f"
  else if (n <? 32)%N then
    String backslash
      (String "u" (String "0" (String "0"
        (String (hex_digit (n / 16)) (String (hex_digit (n mod 16)) EmptyString)))))
  else String c EmptyString.

Fixpoint escape (s : string) : string :=
  match s with
  | EmptyString => EmptyString
  | String c rest => (escape_char c +:+ escape rest)%string
  end.

Definition dumps_str (s : string) : string :=
  String quote (escape s +:+ String quote EmptyString)%string.

(** [", ".join(parts)]. *)
Fixpoint join_comma (parts : list string) : string :=
  match parts with
  | [] => EmptyString
  | [p] => p
  | p :: rest => (p +:+ ", " +:+ join_comma rest)%string
  end.

(** [json.dumps(v, ensure_ascii=False)] with the default separators. *)
Fixpoint dumps (v : json) : string :=
  match v with
  | JNull => "null"
  | JBool b => if b then "true" else "false"
  | JInt n => str_int n
  | JStr s => dumps_str s
  | JArr items =>
      ("[" +:+ join_comma (map dumps items) +:+ "]")%string
  | JObj fields =>
      ("{" +:+
       join_comma
         ((fix members (fs : list (string * json)) : list string :=
             match fs with
             | [] => []
             | (k, x) :: fs' => (dumps_str k +:+ ": " +:+ dumps x)%string :: members fs'
             end) fields) +:+
       "}")%string
  end.

End Json.

(** ** converter.py *)

Module Converter.
Import Py.
Local Open Scope py_scope.

Section Converter.
Context {rt : Runtime}.

(** The operator that [get_input_port_ordinal] and [get_output_port_ordinal]
    select: [next(op for op in workflow_dict["operators"]
                  if op["operatorID"] == operatorID)]. *)
Definition find_operator (workflow_dict operatorID : json) : result json :=
  let* operators := getitem workflow_dict "operators" in
  let* ops := py_iter operators in
  next_where (λ op, let* id := getitem op "operatorID" in Ok (py_eq id operatorID)) ops.

Definition port_ordinal (ports : json) (portID : json) : result nat :=
  let* items := py_iter ports in
  next_index_where
    (λ port, let* id := getitem port "portID" in Ok (py_eq id portID)) 0 items.

Definition get_input_port_ordinal (workflow_dict operatorID inputPortID : json)
    : result nat :=
  let* operator := find_operator workflow_dict operatorID in
  let* ports := getitem operator "inputPorts" in
  port_ordinal ports inputPortID.

Definition get_output_port_ordinal (workflow_dict operatorID outputPortID : json)
    : result nat :=
  let* operator := find_operator workflow_dict operatorID in
  let* ports := getitem operator "outputPorts" in
  port_ordinal ports outputPortID.

(** The dict display of lines 40-46: the properties are unpacked first, the
    four fixed keys are stored after them. *)
Definition new_operator (operator : json) : result json :=
  let* props := getitem operator "operatorProperties" in
  match props with
  | JObj fields =>
      let* operatorID := getitem operator "operatorID" in
      let* operatorType := getitem operator "operatorType" in
      let* inputPorts := getitem operator "inputPorts" in
      let* outputPorts := getitem operator "outputPorts" in
      Ok (JObj (dict_set "outputPorts" outputPorts
               (dict_set "inputPorts" inputPorts
               (dict_set "operatorType" operatorType
               (dict_set "operatorID" operatorID fields)))))
  | _ => Raise TypeError
  end.

Definition port_identity (ordinal : nat) : json :=
  JObj [("id", JInt (Z.of_nat ordinal)); ("internal", JBool false)].

(** The body of the loop over the links, lines 51-59. *)
Definition new_link (workflow_dict link : json) : result json :=
  let* source := getitem link "source" in
  let* fromOp := getitem source "operatorID" in
  let* fromPort := getitem source "portID" in
  let* output_port_idx := get_output_port_ordinal workflow_dict fromOp fromPort in
  let* target := getitem link "target" in
  let* toOp := getitem target "operatorID" in
  let* toPort := getitem target "portID" in
  let* input_port_idx := get_input_port_ordinal workflow_dict toOp toPort in
  Ok (JObj [("fromOpId", fromOp);
            ("fromPortId", port_identity output_port_idx);
            ("toOpId", toOp);
            ("toPortId", port_identity input_port_idx)]).

(** [for x in items: out.append(body(x))]: the first exception ends the loop. *)
Fixpoint for_each (body : json → result json) (items : list json)
    : result (list json) :=
  match items with
  | [] => Ok []
  | x :: rest =>
      let* y := body x in
      let* ys := for_each body rest in
      Ok (y :: ys)
  end.

(** [set(op["operatorID"] for op in ops)]. *)
Fixpoint operator_id_set (ops : list json) (so : pyset) : result pyset :=
  match ops with
  | [] => Ok so
  | op :: rest =>
      let* id := getitem op "operatorID" in
      if hashable id then operator_id_set rest (set_add_entry so id)
      else Raise TypeError
  end.

(** [list(operator_ids.intersection(workflow_dict.get(field, [])))]. *)
Definition filter_ids (workflow_dict : json) (operator_ids : pyset) (field : string)
    : result json :=
  let* wanted := get workflow_dict field (JArr []) in
  let* kept := intersection operator_ids wanted in
  Ok (JArr (set_order kept)).

(** The function after [json.loads]. *)
Definition convert_workflow_dict (workflow_dict : json) : result json :=
  let* operators := get workflow_dict "operators" (JArr []) in
  let* ops := py_iter operators in
  let* plan_operators := for_each new_operator ops in
  let* links := get workflow_dict "links" (JArr []) in
  let* lks := py_iter links in
  let* plan_links := for_each (new_link workflow_dict) lks in
  let* operators' := get workflow_dict "operators" (JArr []) in
  let* ops' := py_iter operators' in
  let* operator_ids := operator_id_set ops' [] in
  let* view := filter_ids workflow_dict operator_ids "opsToViewResult" in
  let* reuse := filter_ids workflow_dict operator_ids "opsToReuseResult" in
  Ok (JObj [("operators", JArr plan_operators);
            ("links", JArr plan_links);
            ("opsToReuseResult", reuse);
            ("opsToViewResult", view)]).

Definition convertWorkflowContentToLogicalPlan (workflowRawContent : string)
    : result json :=
  let* workflow_dict := json_loads workflowRawContent in
  convert_workflow_dict workflow_dict.

End Converter.
End Converter.

(** ** texera_python_client.py *)

Module Client.
Import Py Float Json Converter.
Local Open Scope py_scope.

(** The calls the client makes on the file system, through [os.path] and
    [pathlib].  A call that changes the disk returns the disk it leaves
    behind also when it raises. *)
Class FileSystem := {
  fs : Type;
  (** [os.path.isfile(path)] *)
  isfile : fs → string → bool;
  (** [Path(path).read_text(encoding="utf-8")] *)
  read_text : fs → string → result string;
  (** [Path(path).stem] *)
  stem : string → string;
  (** [out_dir / filename] *)
  joinpath : string → string → string;
  (** [out_dir.mkdir(parents=True, exist_ok=True)] *)
  mkdir_parents : string → fs → fs * option exn;
  (** [path.open("w", encoding="utf-8")], the writes of the text and the
      closing of the file *)
  write_text : string → string → fs → fs * option exn;
}.

Inductive level : Type := DEBUG | INFO | WARNING | ERROR.

Inductive log_arg : Type :=
  | AJson (v : json)
  | AInt (n : Z)
  | AStr (s : string)
  | AFloat (x : float64)
  | AExn (e : exn).

(** A call of [logger]: the level, the message template and the values for
    its fields. *)
Record log_record := LogRecord {
  log_level : level;
  log_template : string;
  log_args : list log_arg;
}.

(** The text loguru writes for the record of line 130, whose one field has
    the format [{:.2f}]. *)
Definition render_duration (r : log_record) : option string :=
  match log_args r with
  | [AFloat x] =>
      if String.eqb (log_template r) "Final execution time: {:.2f}s"
      then Some ("Final execution time: " +:+ format_2f x +:+ "s")%string
      else None
  | _ => None
  end.

(** The namespaces [cmd_parser.parse_args] returns. *)
Record page_args := PageArgs {
  operator : string;
  size : Z;
  page : Z;
  export : option string;
}.

Record exec_args := ExecArgs {
  plan : string;
  name : option string;
}.

Inductive namespace : Type :=
  | NsKill
  | NsPage (ns : page_args)
  | NsExec (ns : exec_args)
  | NsNone.

Section Client.
Context {rt : Runtime} {os : FileSystem}.

(** The state the two coroutines share: the module-level dict
    [export_requests], the disk, what was handed to [ws.send] (the value that
    [json.dumps] encodes, oldest first) and what was logged. *)
Record world := World {
  export_requests : gmap (string * Z) (string * Z);
  disk : fs;
  sent : list json;
  logged : list log_record;
}.

(** A piece of client code: it changes the world and returns or raises. *)
Definition action (A : Type) : Type := world → world * result A.

Definition ret {A} (a : A) : action A := λ w, (w, Ok a).

Definition raise {A} (e : exn) : action A := λ w, (w, Raise e).

Definition bind {A B} (m : action A) (k : A → action B) : action B :=
  λ w, match m w with
       | (w', Ok a) => k a w'
       | (w', Raise e) => (w', Raise e)
       end.

Definition lift {A} (r : result A) : action A := λ w, (w, r).

Notation "'do' x <- m ; k" := (bind m (λ x, k))
  (at level 10, x pattern, m at level 100, k at level 200).
Notation "m ;; k" := (bind m (λ _, k))
  (at level 100, k at level 200, right associativity).

(** [logger.info(template, *args)] and the like. *)
Definition logger (lvl : level) (template : string) (args : list log_arg)
    : action unit :=
  λ w, (World (export_requests w) (disk w) (sent w)
              (logged w ++ [LogRecord lvl template args]), Ok tt).

(** [await ws.send(json.dumps(payload))] on an open connection. *)
Definition ws_send (payload : json) : action unit :=
  λ w, (World (export_requests w) (disk w) (sent w ++ [payload]) (logged w), Ok tt).

Definition set_export_requests (t : gmap (string * Z) (string * Z)) : action unit :=
  λ w, (World t (disk w) (sent w) (logged w), Ok tt).

Definition get_export_requests : action (gmap (string * Z) (string * Z)) :=
  λ w, (w, Ok (export_requests w)).

Definition on_disk (op : fs → fs * option exn) : action unit :=
  λ w, let '(d, failure) := op (disk w) in
       (World (export_requests w) d (sent w) (logged w),
        match failure with Some e => Raise e | None => Ok tt end).

Definition from_disk {A} (read : fs → result A) : action A :=
  λ w, (w, read (disk w)).

(** [try: body except Exception: handler]: every exception of the model is
    an [Exception]. *)
Definition try_except {A} (body : action A) (handler : exn → action A) : action A :=
  λ w, match body w with
       | (w', Ok a) => (w', Ok a)
       | (w', Raise e) => handler e w'
       end.

Fixpoint for_each_do {A} (body : A → action unit) (items : list A) : action unit :=
  match items with
  | [] => ret tt
  | x :: rest => body x ;; for_each_do body rest
  end.

(** *** The send handlers *)

Definition handle_kill : action unit :=
  ws_send (JObj [("type", JStr "WorkflowKillRequest")]) ;;
  logger INFO "Sent kill request" [].

Definition handle_page (ns : page_args) : action unit :=
  match export ns with
  | Some dir =>
      do t <- get_export_requests;
      set_export_requests (<[(operator ns, page ns) := (dir, size ns)]> t) ;;
      logger INFO "Will export page {} of {} (size {}) to {}"
        [AInt (page ns); AStr (operator ns); AInt (size ns); AStr dir]
  | None => ret tt
  end ;;
  let req := JObj [
    ("type", JStr "ResultPaginationRequest");
    ("requestID",
       JStr ("req_" +:+ operator ns +:+ "_" +:+ str_int (size ns) +:+ "_" +:+
             str_int (page ns))%string);
    ("operatorID", JStr (operator ns));
    ("pageIndex", JInt (page ns));
    ("pageSize", JInt (size ns))] in
  ws_send req ;;
  logger INFO "Sent pagination request: operator={} size={} page={}"
    [AStr (operator ns); AInt (size ns); AInt (page ns)].

(** [needle in hay]. *)
Fixpoint contains (needle hay : string) : bool :=
  String.prefix needle hay ||
  match hay with
  | EmptyString => false
  | String _ rest => contains needle rest
  end.

(** The text ["operatorPositions"], quotes included. *)
Definition marker : string :=
  String quote ("operatorPositions" +:+ String quote EmptyString)%string.

(** [handle_exec]: the two [return]s that give up the command are the
    branch of the missing file and the [None] of the handler. *)
Definition handle_exec (ns : exec_args) : action unit :=
  let plan_path := plan ns in
  do found <- from_disk (λ d, Ok (isfile d plan_path));
  if negb found then logger ERROR "Plan file not found: {}" [AStr plan_path]
  else
    let name :=
      match name ns with
      | Some n => if String.eqb n EmptyString then stem plan_path else n
      | None => stem plan_path
      end in
    do outcome <-
      try_except
        (do raw <- from_disk (λ d, read_text d plan_path);
         if contains marker raw then
           do logical_plan <- lift (convertWorkflowContentToLogicalPlan raw);
           logger DEBUG "Auto-detected JSONA format" [] ;;
           ret (Some logical_plan)
         else
           do logical_plan <- lift (json_loads raw);
           logger DEBUG "Auto-detected JSONB format" [] ;;
           ret (Some logical_plan))
        (λ e, logger ERROR "Failed to read or convert plan" [AExn e] ;; ret None);
    match outcome with
    | None => ret tt
    | Some logical_plan =>
        let payload := JObj [
          ("type", JStr "WorkflowExecuteRequest");
          ("executionName", JStr name);
          ("engineVersion", JStr "3a1c33d6f");
          ("logicalPlan", logical_plan);
          ("workflowSettings", JObj [("dataTransferBatchSize", JInt 400)]);
          ("emailNotificationEnabled", JBool false)] in
        ws_send payload ;;
        logger INFO "Sent execute request: name={} plan={}" [AStr name; AStr plan_path]
    end.

(** *** The receiver *)

(** The key [(op, pg)] as [export_requests] sees it.  The dict holds keys
    made of a [str] and an [int] only; a [bool] page index is equal to the
    [int] 0 or 1 and has the same hash.  The text is [str(pg)]. *)
Definition page_key (pg : json) : option (Z * string) :=
  match pg with
  | JInt n => Some (n, str_int n)
  | JBool b => Some (int_of_bool b, if b then "True" else "False")
  | _ => None
  end.

(** [key in export_requests], with the key found, the text of the page and
    the entry. *)
Definition lookup_export (t : gmap (string * Z) (string * Z)) (op pg : json)
    : option ((string * Z) * string * (string * Z)) :=
  match op, page_key pg with
  | JStr o, Some (n, text) =>
      match t !! (o, n) with
      | Some entry => Some ((o, n), text, entry)
      | None => None
      end
  | _, _ => None
  end.

(** Lines 151-161. *)
Definition export_rows (op pg : json) (rows : list json) : action unit :=
  if negb (hashable op && hashable pg) then raise TypeError
  else
    do t <- get_export_requests;
    match lookup_export t op pg with
    | Some (key, page_text, (out_dir, req_size)) =>
        set_export_requests (delete key t) ;;
        on_disk (mkdir_parents out_dir) ;;
        let filename :=
          (key.1 +:+ "_" +:+ str_int req_size +:+ "_" +:+ page_text +:+ ".jsonl")%string in
        let path := joinpath out_dir filename in
        let text :=
          fold_right (λ row rest, dumps row +:+ String newline rest)%string
                     EmptyString rows in
        on_disk (write_text path text) ;;
        logger INFO "Exported {} rows as JSONL to {}"
          [AInt (Z.of_nat (length rows)); AStr path]
    | None => ret tt
    end.

(** [dur_ms / 1000]: only an [int] (or a [bool]) can be divided. *)
Definition seconds (dur_ms : json) : result float64 :=
  match dur_ms with
  | JInt n => true_divide n 1000
  | JBool b => true_divide (int_of_bool b) 1000
  | _ => Raise TypeError
  end.

(** [updates.items()]. *)
Definition dict_items (v : json) : result (list (string * json)) :=
  match v with
  | JObj fields => Ok fields
  | _ => Raise AttributeError
  end.

(** Lines 127-130. *)
Definition on_duration_update (event : json) : action unit :=
  do dur_ms <- lift (get event "duration" JNull);
  do is_running <- lift (get event "isRunning" JNull);
  if negb (py_truthy is_running) then
    do secs <- lift (seconds dur_ms);
    logger INFO "Final execution time: {:.2f}s" [AFloat secs]
  else ret tt.

(** Line 133. *)
Definition on_workflow_state (event : json) : action unit :=
  do state <- lift (getitem event "state");
  logger INFO "WorkflowState → {}" [AJson state].

(** Lines 136-139. *)
Definition on_result_update (event : json) : action unit :=
  do updates <- lift (get event "updates" (JObj []));
  do pairs <- lift (dict_items updates);
  for_each_do
    (λ '(op_id, info),
       do total <- lift (get info "totalNumTuples" JNull);
       logger INFO "Result Operator Update: {} → totalNumTuples={}"
         [AStr op_id; AJson total])
    pairs.

(** Lines 142-161. *)
Definition on_paginated_result (event : json) : action unit :=
  do op <- lift (getitem event "operatorID");
  do pg <- lift (getitem event "pageIndex");
  do rows <- lift (get event "table" (JArr []));
  do n <- lift (py_len rows);
  logger INFO "Result: operatorID={} size={} page={}"
    [AJson op; AInt (Z.of_nat n); AJson pg] ;;
  do schema <- lift (getitem event "schema");
  logger INFO "Schema: {}" [AJson schema] ;;
  do each <- lift (py_iter rows);
  for_each_do (λ row, logger INFO "Row: {}" [AJson row]) each ;;
  export_rows op pg each.

(** The body of the loop of [receiver], lines 123-161: the event is decoded
    and handled by the branch of its type; an event of another type is
    ignored. *)
Definition dispatch (raw : string) : action unit :=
  do event <- lift (json_loads raw);
  do evt <- lift (get event "type" JNull);
  if py_eq evt (JStr "ExecutionDurationUpdateEvent") then on_duration_update event
  else if py_eq evt (JStr "WorkflowStateEvent") then on_workflow_state event
  else if py_eq evt (JStr "WebResultUpdateEvent") then on_result_update event
  else if py_eq evt (JStr "PaginatedResultEvent") then on_paginated_result event
  else ret tt.

(** [receiver]: the frames are handled in the order of their arrival until
    the connection closes; an exception of [dispatch] is not caught. *)
Definition receiver (frames : list string) : action unit :=
  for_each_do dispatch frames ;;
  logger WARNING "Connection closed, exiting receiver loop" [].

(** *** The sender *)

(** One round of the loop of [sender], lines 196-206, on a parsed command. *)
Definition sender_step (ns : namespace) : action unit :=
  match ns with
  | NsKill => handle_kill
  | NsPage a => handle_page a
  | NsExec a => handle_exec a
  | NsNone => logger WARNING "Unknown command: {}" [AJson JNull]
  end.

(** What the session does, in the order in which the event loop runs it:
    a command of the user or a frame of the server. *)
Inductive activity : Type :=
  | Command (ns : namespace)
  | Frame (raw : string).

Definition perform (a : activity) : action unit :=
  match a with
  | Command ns => sender_step ns
  | Frame raw => dispatch raw
  end.

Definition session (schedule : list activity) : action unit :=
  for_each_do perform schedule.

End Client.
End Client.

(** ** Vocabulary of the specification *)

Module Spec.
Import Py Float Json Converter Client.

(** Induction on a decoded JSON value, through its lists. *)
Definition json_ind (P : json → Prop)
    (HNull : P JNull) (HBool : ∀ b, P (JBool b)) (HInt : ∀ n, P (JInt n))
    (HStr : ∀ s, P (JStr s))
    (HArr : ∀ items, Forall P items → P (JArr items))
    (HObj : ∀ fields, Forall (λ kv, P kv.2) fields → P (JObj fields))
    : ∀ v, P v :=
  fix go (v : json) : P v :=
    match v with
    | JNull => HNull
    | JBool b => HBool b
    | JInt n => HInt n
    | JStr s => HStr s
    | JArr items =>
        HArr items
          ((fix all (l : list json) : Forall P l :=
              match l with
              | [] => @List.Forall_nil _ P
              | x :: l' => @List.Forall_cons _ P x l' (go x) (all l')
              end) items)
    | JObj fields =>
        HObj fields
          ((fix all (l : list (string * json)) : Forall (λ kv, P kv.2) l :=
              match l with
              | [] => @List.Forall_nil _ _
              | kv :: l' => @List.Forall_cons _ _ kv l' (go kv.2) (all l')
              end) fields)
    end.

(** [x] is the first item of [l] that passes [test], and sits at index [i]. *)
Definition first_at {A} (test : A → bool) (l : list A) (i : nat) (x : A) : Prop :=
  l !! i = Some x ∧ test x = true ∧
  ∀ j y, (j < i)%nat → l !! j = Some y → test y = false.

(** The record [x] carries under [field] a value equal ([==]) to [id]. *)
Definition has_id (field : string) (id : json) (x : json) : bool :=
  match getitem x field with
  | Ok v => py_eq v id
  | Raise _ => false
  end.

Definition has_field (field : string) (x : json) : bool :=
  is_ok (getitem x field).

(** The keys that the conversion stores after the operator's properties. *)
Definition structural_fields : list string :=
  ["operatorID"; "operatorType"; "inputPorts"; "outputPorts"].

(** *** The User Workflow Document *)

Definition is_port_list (v : json) : bool :=
  match v with
  | JArr ports => forallb (has_field "portID") ports
  | _ => false
  end.

Definition is_operator (op : json) : bool :=
  match getitem op "operatorProperties", getitem op "operatorID",
        getitem op "inputPorts", getitem op "outputPorts" with
  | Ok (JObj _), Ok id, Ok ins, Ok outs =>
      hashable id && has_field "operatorType" op &&
      is_port_list ins && is_port_list outs
  | _, _, _, _ => false
  end.

Definition is_endpoint (ep : json) : bool :=
  has_field "operatorID" ep && has_field "portID" ep.

Definition is_link (link : json) : bool :=
  match getitem link "source", getitem link "target" with
  | Ok source, Ok target => is_endpoint source && is_endpoint target
  | _, _ => false
  end.

Definition is_id_list (v : option json) : bool :=
  match v with
  | None => true
  | Some (JArr ids) => forallb hashable ids
  | Some _ => false
  end.

(** The shape of §3: a dict with the list of the operators, the list of the
    links and, when present, the two lists of ids. *)
Definition user_workflow_document (d : json) : bool :=
  match d with
  | JObj fields =>
      match dict_lookup "operators" fields, dict_lookup "links" fields with
      | Some (JArr ops), Some (JArr links) =>
          forallb is_operator ops && forallb is_link links &&
          is_id_list (dict_lookup "opsToViewResult" fields) &&
          is_id_list (dict_lookup "opsToReuseResult" fields)
      | _, _ => false
      end
  | _ => false
  end.

Definition operators_of (d : json) : list json :=
  match getitem d "operators" with
  | Ok (JArr ops) => ops
  | _ => []
  end.

Definition links_of (d : json) : list json :=
  match getitem d "links" with
  | Ok (JArr links) => links
  | _ => []
  end.

(** The endpoint [ep] names an operator of [ops], the first one that carries
    its [operatorID], and one of the ports that this operator lists under
    [side]. *)
Definition endpoint_resolves (ops : list json) (side : string) (ep : json) : bool :=
  match getitem ep "operatorID", getitem ep "portID" with
  | Ok opid, Ok pid =>
      match find (has_id "operatorID" opid) ops with
      | Some op =>
          match getitem op side with
          | Ok (JArr ports) => existsb (has_id "portID" pid) ports
          | _ => false
          end
      | None => false
      end
  | _, _ => false
  end.

Definition link_resolves (ops : list json) (link : json) : bool :=
  match getitem link "source", getitem link "target" with
  | Ok source, Ok target =>
      endpoint_resolves ops "outputPorts" source &&
      endpoint_resolves ops "inputPorts" target
  | _, _ => false
  end.

(** [i] is the zero-based index of the port named by [ep] within the list
    [side] of the operator named by [ep]. *)
Definition port_index_of (ops : list json) (side : string) (ep : json) (i : nat) : Prop :=
  ∃ opid pid k op ports port,
    getitem ep "operatorID" = Ok opid ∧ getitem ep "portID" = Ok pid ∧
    first_at (has_id "operatorID" opid) ops k op ∧
    getitem op side = Ok (JArr ports) ∧
    first_at (has_id "portID" pid) ports i port.

(** The record of the logical plan for [link]. *)
Definition link_record (ops : list json) (link record : json) : Prop :=
  ∃ source target fromOp toOp i j,
    getitem link "source" = Ok source ∧ getitem link "target" = Ok target ∧
    getitem source "operatorID" = Ok fromOp ∧ getitem target "operatorID" = Ok toOp ∧
    port_index_of ops "outputPorts" source i ∧
    port_index_of ops "inputPorts" target j ∧
    record = JObj [("fromOpId", fromOp);
                   ("fromPortId", JObj [("id", JInt (Z.of_nat i)); ("internal", JBool false)]);
                   ("toOpId", toOp);
                   ("toPortId", JObj [("id", JInt (Z.of_nat j)); ("internal", JBool false)])].

(** The endpoint [ep] names no operator of [ops], or names one that lists no
    port with its [portID] under [side]. *)
Definition endpoint_dangles (ops : list json) (side : string) (ep : json) : bool :=
  match getitem ep "operatorID", getitem ep "portID" with
  | Ok opid, Ok pid =>
      match find (has_id "operatorID" opid) ops with
      | Some op =>
          match getitem op side with
          | Ok (JArr ports) => negb (existsb (has_id "portID" pid) ports)
          | _ => false
          end
      | None => true
      end
  | _, _ => false
  end.

Definition link_dangles (ops : list json) (link : json) : bool :=
  match getitem link "source", getitem link "target" with
  | Ok source, Ok target =>
      endpoint_dangles ops "outputPorts" source ||
      endpoint_dangles ops "inputPorts" target
  | _, _ => false
  end.

(** *** The id lists *)

(** What a hashable value is compared by: [True] and [1] are one key. *)
Inductive atom : Type :=
  | KNone
  | KInt (n : Z)
  | KStr (s : string).

Definition key_of (v : json) : atom :=
  match v with
  | JBool b => KInt (int_of_bool b)
  | JInt n => KInt n
  | JStr s => KStr s
  | _ => KNone
  end.

(** [x] equals the [operatorID] of an operator of [ops]. *)
Definition names_operator (ops : list json) (x : json) : bool :=
  existsb (has_id "operatorID" x) ops.

(** The ids that the document lists under [field]; none when the field is
    absent. *)
Definition listed_ids (d : json) (field : string) : list json :=
  match get d field (JArr []) with
  | Ok v => match py_iter v with Ok ids => ids | Raise _ => [] end
  | Raise _ => []
  end.

(** No two members of [l] are equal under [==]. *)
Definition distinct (l : list json) : Prop :=
  ∀ i j y z, l !! i = Some y → l !! j = Some z → py_eq y z = true → i = j.

(** [out] is, as a set, the part of [listed] that names an operator. *)
Definition is_intersection (ops listed out : list json) : Prop :=
  (∀ y, y ∈ out → y ∈ listed ∧ names_operator ops y = true) ∧
  (∀ x, x ∈ listed → names_operator ops x = true → ∃ y, y ∈ out ∧ py_eq y x = true) ∧
  distinct out.

(** The invariant of a [set]: hashable members with pairwise distinct keys. *)
Definition is_set (so : pyset) : Prop :=
  Forall (λ x, hashable x = true) so ∧ NoDup (key_of <$> so).

(** *** Export files and events *)

(** The lines of a text, each one without the newline that ends it. *)
Fixpoint lines (text : string) : list string :=
  match text with
  | EmptyString => []
  | String c rest =>
      if Ascii.eqb c newline then EmptyString :: lines rest
      else match lines rest with
           | [] => [String c EmptyString]
           | line :: others => String c line :: others
           end
  end.

Fixpoint has_newline (s : string) : bool :=
  match s with
  | EmptyString => false
  | String c rest => Ascii.eqb c newline || has_newline rest
  end.

(** The text of an export file: one encoded row per line. *)
Definition jsonl (rows : list json) : string :=
  fold_right (λ row rest, dumps row +:+ String newline rest)%string EmptyString rows.

(** The name of the export file of a request. *)
Definition export_name (op : string) (size pg : Z) : string :=
  (op +:+ "_" +:+ str_int size +:+ "_" +:+ str_int pg +:+ ".jsonl")%string.

(** [event] is a [PaginatedResultEvent] of operator [op] and page [pg] that
    carries [rows] and a schema. *)
Definition paginated_result (event : json) (op : string) (pg : Z) (rows : list json)
    : Prop :=
  get event "type" JNull = Ok (JStr "PaginatedResultEvent") ∧
  getitem event "operatorID" = Ok (JStr op) ∧
  getitem event "pageIndex" = Ok (JInt pg) ∧
  get event "table" (JArr []) = Ok (JArr rows) ∧
  has_field "schema" event = true.

(** [event] is a [PaginatedResultEvent] whose operator and page are those of
    the request [key], be the event complete or not. *)
Definition answers (key : string * Z) (event : json) : Prop :=
  ∃ evt pg text,
    get event "type" JNull = Ok evt ∧ py_eq evt (JStr "PaginatedResultEvent") = true ∧
    getitem event "operatorID" = Ok (JStr key.1) ∧
    getitem event "pageIndex" = Ok pg ∧ page_key pg = Some (key.2, text).

(** An [ExecutionDurationUpdateEvent] with its two fields. *)
Definition duration_update (event : json) (dur_ms is_running : json) : Prop :=
  get event "type" JNull = Ok (JStr "ExecutionDurationUpdateEvent") ∧
  get event "duration" JNull = Ok dur_ms ∧
  get event "isRunning" JNull = Ok is_running.

Section Schedules.
Context {rt : Runtime} {os : FileSystem}.

(** The activity does not store an export request under [key]. *)
Definition registers_not (key : string * Z) (a : activity) : Prop :=
  match a with
  | Command (NsPage ns) => export ns = None ∨ (operator ns, page ns) ≠ key
  | _ => True
  end.

(** The activity neither stores nor consumes the export request [key]. *)
Definition leaves_request (key : string * Z) (a : activity) : Prop :=
  match a with
  | Command _ => registers_not key a
  | Frame raw => ∀ event, json_loads raw = Ok event → ¬ answers key event
  end.

(** The world [w] with [records] added to its log. *)
Definition with_log (w : world) (records : list log_record) : world :=
  World (export_requests w) (disk w) (sent w) (logged w ++ records).

(** Two worlds with the same requests, the same disk and the same frames
    sent: they differ by their logs at most. *)
Definition same_but_log (w w' : world) : Prop :=
  export_requests w' = export_requests w ∧ disk w' = disk w ∧ sent w' = sent w.

(** The plan file of an execute command cannot be used: it is missing, it
    cannot be read, or its text is not decoded or not converted. *)
Definition plan_unusable (w : world) (ns : exec_args) : Prop :=
  isfile (disk w) (plan ns) = false ∨
  (∃ e, read_text (disk w) (plan ns) = Raise e) ∨
  (∃ raw e, read_text (disk w) (plan ns) = Ok raw ∧
            (if contains marker raw then convertWorkflowContentToLogicalPlan raw
             else json_loads raw) = Raise e).

End Schedules.

Section Frames.
Context {rt : Runtime} {os : FileSystem}.

(** Two worlds with the same requests and the same disk. *)
Definition same_requests_and_disk (w w' : world) : Prop :=
  export_requests w' = export_requests w ∧ disk w' = disk w.

(** Whatever its outcome, the action leaves the world in relation [R] with
    the world it started from. *)
Definition preserves {A} (R : world → world → Prop) (m : action A) : Prop :=
  ∀ w, R w (m w).1.

End Frames.

(** *** Vocabulary of the further properties *)

(** The exceptions that the conversion of a decoded document raises. *)
Definition conversion_error (e : exn) : bool :=
  match e with
  | KeyError _ | TypeError | AttributeError | StopIteration => true
  | _ => false
  end.

(** Every exception of [r] is one of the conversion. *)
Definition raises_only_conversion_errors {A} (r : result A) : Prop :=
  ∀ e, r = Raise e → conversion_error e = true.

(** The plan of a document that lists nothing. *)
Definition empty_plan : json :=
  JObj [("operators", JArr []); ("links", JArr []);
        ("opsToReuseResult", JArr []); ("opsToViewResult", JArr [])].

(** The operator record [record] carries the four structural fields of
    [op]. *)
Definition same_structure (op record : json) : Prop :=
  ∀ k, k ∈ structural_fields → ∃ v, getitem op k = Ok v ∧ getitem record k = Ok v.


(** The number that [format_2f] prints: the value in hundredths. *)
Definition hundredths (x : float64) : Z :=
  if (0 <=? exponent x)%Z then (mantissa x * 2 ^ exponent x * 100)%Z
  else round_half_even (mantissa x * 100) (2 ^ (- exponent x)).


(** The byte [c] occurs in [s]. *)
Fixpoint occurs (c : ascii) (s : string) : bool :=
  match s with
  | EmptyString => false
  | String c' rest => Ascii.eqb c' c || occurs c rest
  end.

(** The types of event that [receiver] handles. *)
Definition event_kinds : list string :=
  ["ExecutionDurationUpdateEvent"; "WorkflowStateEvent";
   "WebResultUpdateEvent"; "PaginatedResultEvent"].



(** The record of one entry of a [WebResultUpdateEvent]. *)
Definition update_record (kv : string * json) : log_record :=
  LogRecord INFO "Result Operator Update: {} → totalNumTuples={}"
    [AStr kv.1;
     AJson (match kv.2 with
            | JObj fields => default JNull (dict_lookup "totalNumTuples" fields)
            | _ => JNull
            end)].

Definition is_dict (v : json) : bool :=
  match v with JObj _ => true | _ => false end.

(** A value that cannot be divided: neither an [int] nor a [bool]. *)
Definition not_a_number (v : json) : bool :=
  match v with JInt _ | JBool _ => false | _ => true end.

Section Sessions.
Context {rt : Runtime} {os : FileSystem}.


(** The number of commands of a schedule. *)
Fixpoint commands (schedule : list activity) : nat :=
  match schedule with
  | [] => 0
  | Command _ :: rest => S (commands rest)
  | Frame _ :: rest => commands rest
  end.

(** A paginate command of the schedule asks for the export [entry] of
    [key]. *)
Definition requested (schedule : list activity) (key : string * Z) (entry : string * Z)
    : Prop :=
  ∃ ns, Command (NsPage ns) ∈ schedule ∧ export ns = Some entry.1 ∧
        (operator ns, page ns) = key ∧ size ns = entry.2.

(** Two worlds between which nothing was sent. *)
Definition same_sent (w w' : world) : Prop := sent w' = sent w.

(** The export of [rows] to [dir] under [filename] fails with [e] and leaves
    the disk [d]: the directory cannot be made, or it is made and the file
    cannot be written. *)
Definition export_fails (dir filename : string) (rows : list json) (w : world)
    (d : fs) (e : exn) : Prop :=
  mkdir_parents dir (disk w) = (d, Some e) ∨
  ∃ d1, mkdir_parents dir (disk w) = (d1, None) ∧
        write_text (joinpath dir filename) (jsonl rows) d1 = (d, Some e).

End Sessions.

End Spec.

(** ** Implementations of the interfaces, and documents, for the examples *)

Module Examples.
Import Py Float Json Converter Client.

(** A decoder that knows the documents of [known]: it inverts [dumps] on
    them and rejects every other text. *)
Definition decode_among (known : list json) (raw : string) : result json :=
  match find (λ v, String.eqb (dumps v) raw) known with
  | Some v => Ok v
  | None => Raise JSONDecodeError
  end.

(** A disk that is a list of files, the newest first; every directory
    exists and every write succeeds. *)
Definition read_file (files : list (string * string)) (path : string) : option string :=
  snd <$> find (λ f, String.eqb (fst f) path) files.

Definition memory_disk : FileSystem := {|
  fs := list (string * string);
  isfile files path := bool_decide (is_Some (read_file files path));
  read_text files path :=
    match read_file files path with
    | Some text => Ok text
    | None => Raise (OSError 2)
    end;
  stem path := path;
  joinpath dir file := (dir +:+ "/" +:+ file)%string;
  mkdir_parents dir files := (files, None);
  write_text path text files := ((path, text) :: files, None);
|}.

(** Two operators, [A] with the output ports [out0] and [out1], [B] with the
    input ports [in0] and [in1], and one link from [out1] to [in1]. *)
Definition port (id : string) : json := JObj [("portID", JStr id)].

Definition operator_A : json :=
  JObj [("operatorID", JStr "A");
        ("operatorType", JStr "Scan");
        ("operatorProperties", JObj [("limit", JInt 10)]);
        ("inputPorts", JArr []);
        ("outputPorts", JArr [port "out0"; port "out1"])].

Definition operator_B : json :=
  JObj [("operatorID", JStr "B");
        ("operatorType", JStr "Sink");
        ("operatorProperties", JObj []);
        ("inputPorts", JArr [port "in0"; port "in1"]);
        ("outputPorts", JArr [])].

Definition endpoint (op id : string) : json :=
  JObj [("operatorID", JStr op); ("portID", JStr id)].

Definition workflow : json :=
  JObj [("operators", JArr [operator_A; operator_B]);
        ("links", JArr [JObj [("source", endpoint "A" "out1");
                              ("target", endpoint "B" "in1")]]);
        ("opsToViewResult", JArr [JStr "B"; JStr "ghost"])].

(** The same document with a link to a port that [B] does not have. *)
Definition dangling_link : json :=
  JObj [("source", endpoint "A" "out0"); ("target", endpoint "B" "in7")].

Definition dangling_workflow : json :=
  JObj [("operators", JArr [operator_A; operator_B]);
        ("links", JArr [dangling_link])].

(** An operator whose properties repeat a fixed key. *)
Definition colliding_operator : json :=
  JObj [("operatorID", JStr "A");
        ("operatorType", JStr "Scan");
        ("operatorProperties", JObj [("operatorID", JStr "shadow"); ("limit", JInt 10)]);
        ("inputPorts", JArr []);
        ("outputPorts", JArr [])].

(** An operator of a logical plan: the four fixed keys, no
    [operatorProperties]. *)
Definition flat_operator : json :=
  JObj [("operatorID", JStr "A");
        ("operatorType", JStr "Scan");
        ("inputPorts", JArr []);
        ("outputPorts", JArr [])].

Definition bare_operator : json :=
  JObj [("operatorProperties", JObj []);
        ("operatorID", JStr "A");
        ("operatorType", JStr "Scan");
        ("inputPorts", JArr []);
        ("outputPorts", JArr [])].

(** A page of fifty rows of the operator [opA], and the end of a run of
    12345 ms. *)
Definition result_rows : list json :=
  map (λ i, JObj [("row", JInt (Z.of_nat i)); ("label", JStr "r")]) (seq 0 50).

Definition page_event : json :=
  JObj [("type", JStr "PaginatedResultEvent");
        ("operatorID", JStr "opA");
        ("pageIndex", JInt 3);
        ("table", JArr result_rows);
        ("schema", JArr [JObj [("attributeName", JStr "row");
                               ("attributeType", JStr "integer")]])].

Definition duration_event : json :=
  JObj [("type", JStr "ExecutionDurationUpdateEvent");
        ("duration", JInt 12345);
        ("isRunning", JBool false)].

Definition state_event : json :=
  JObj [("type", JStr "WorkflowStateEvent"); ("state", JStr "Running")].

(** The plan of [workflow] when the sets hand out their members in the
    order of [interpreter]. *)
Definition workflow_plan : json :=
  JObj [("operators",
         JArr [JObj [("limit", JInt 10); ("operatorID", JStr "A");
                     ("operatorType", JStr "Scan"); ("inputPorts", JArr []);
                     ("outputPorts", JArr [port "out0"; port "out1"])];
               JObj [("operatorID", JStr "B"); ("operatorType", JStr "Sink");
                     ("inputPorts", JArr [port "in0"; port "in1"]);
                     ("outputPorts", JArr [])]]);
        ("links",
         JArr [JObj [("fromOpId", JStr "A");
                     ("fromPortId", JObj [("id", JInt 1); ("internal", JBool false)]);
                     ("toOpId", JStr "B");
                     ("toPortId", JObj [("id", JInt 1); ("internal", JBool false)])]]);
        ("opsToReuseResult", JArr []);
        ("opsToViewResult", JArr [JStr "B"])].

(** A document with a link and no list of operators, and one that lists
    nothing at all. *)
Definition orphan_link_workflow : json :=
  JObj [("links", JArr [JObj [("source", endpoint "A" "out0");
                              ("target", endpoint "B" "in0")]])].

Definition blank_workflow : json := JObj [("operatorPositions", JObj [])].

(** Events of the edges: a type that the receiver does not handle, a
    page whose index is a boolean, a page without schema, a page without
    table, a run without duration, and the counts of two operators. *)
Definition legacy_event : json :=
  JObj [("type", JStr "WorkerAssignmentUpdateEvent"); ("operatorId", JStr "opA")].

Definition boolean_page_event : json :=
  JObj [("type", JStr "PaginatedResultEvent");
        ("operatorID", JStr "opA");
        ("pageIndex", JBool true);
        ("table", JArr [JObj [("row", JInt 0)]]);
        ("schema", JArr [])].

Definition schemaless_event : json :=
  JObj [("type", JStr "PaginatedResultEvent");
        ("operatorID", JStr "opA");
        ("pageIndex", JInt 3);
        ("table", JArr [JObj [("row", JInt 0)]])].

Definition tableless_event : json :=
  JObj [("type", JStr "PaginatedResultEvent");
        ("operatorID", JStr "opA");
        ("pageIndex", JInt 3);
        ("schema", JArr [])].

Definition durationless_event : json :=
  JObj [("type", JStr "ExecutionDurationUpdateEvent"); ("isRunning", JBool false)].

Definition update_event : json :=
  JObj [("type", JStr "WebResultUpdateEvent");
        ("updates", JObj [("opA", JObj [("totalNumTuples", JInt 7)]);
                          ("opB", JObj [("mode", JStr "table")])])].

Definition known_documents : list json :=
  [workflow; dangling_workflow; page_event; duration_event; state_event].

Definition further_documents : list json :=
  [orphan_link_workflow; blank_workflow; legacy_event; boolean_page_event;
   schemaless_event; tableless_event; durationless_event; update_event].

(** An interpreter that knows the further documents too. *)
Definition wider_interpreter : Runtime := {|
  json_loads := decode_among (known_documents ++ further_documents);
  set_order := reverse;
  set_order_perm := reverse_Permutation;
|}.


Definition interpreter : Runtime := {|
  json_loads := decode_among known_documents;
  set_order := reverse;
  set_order_perm := reverse_Permutation;
|}.

(** A session that has just started, on an empty disk. *)
Definition no_files : fs (FileSystem := memory_disk) := @nil (string * string).

Definition fresh : world (os := memory_disk) := World ∅ no_files [] [].

Definition page_command (dir : string) (size : Z) : activity :=
  Command (NsPage (PageArgs "opA" size 3 (Some dir))).

(** A session in which the export of the page 3 of [opA], or of its page
    1, has been asked for. *)
Definition awaiting_page_3 : world (os := memory_disk) :=
  World {[ ("opA"%string, 3%Z) := ("out"%string, 50%Z) ]} no_files [] [].

Definition awaiting_page_1 : world (os := memory_disk) :=
  World {[ ("opA"%string, 1%Z) := ("out"%string, 50%Z) ]} no_files [] [].

(** A disk on which no directory can be made and no file written. *)
Definition read_only_disk : FileSystem := {|
  fs := list (string * string);
  isfile files path := bool_decide (is_Some (read_file files path));
  read_text files path :=
    match read_file files path with
    | Some text => Ok text
    | None => Raise (OSError 2)
    end;
  stem path := path;
  joinpath dir file := (dir +:+ "/" +:+ file)%string;
  mkdir_parents dir files := (files, Some (OSError 30));
  write_text path text files := (files, Some (OSError 30));
|}.

Definition nothing_written : fs (FileSystem := read_only_disk) := @nil (string * string).

Definition awaiting_on_read_only_disk : world (os := read_only_disk) :=
  World {[ ("opA"%string, 3%Z) := ("out"%string, 50%Z) ]} nothing_written [] [].

(** A session whose disk holds a plan file that is not JSON. *)
Definition broken_plan : fs (FileSystem := memory_disk) := [("plan.json", "{ operators")].

Definition with_broken_plan : world (os := memory_disk) := World ∅ broken_plan [] [].



End Examples.

(** ** Properties of the plan converter *)

Import Py Float Json Converter Client Spec Examples.
Local Open Scope py_scope.

Lemma rbind_ok {A B} (r : result A) (k : A → result B) b :
  rbind r k = Ok b → ∃ a, r = Ok a ∧ k a = Ok b.
Proof. destruct r as [a|e]; simpl; [eauto | discriminate]. Qed.

(** Splits a successful sequence of [let*] into its steps. *)
Ltac ok_inv H :=
  repeat match type of H with
  | rbind _ _ = Ok _ =>
      let a := fresh "a" in
      let Ha := fresh "Ha" in
      apply rbind_ok in H as (a & Ha & H)
  end.

Lemma string_eqb_refl s : String.eqb s s = true.
Proof. apply String.eqb_eq; reflexivity. Qed.

Lemma dict_lookup_set_eq k v fields : dict_lookup k (dict_set k v fields) = Some v.
Proof.
  induction fields as [|[k' v'] rest IH]; simpl.
  - now rewrite string_eqb_refl.
  - destruct (String.eqb k k') eqn:E; simpl; rewrite E; [reflexivity | exact IH].
Qed.

Lemma dict_lookup_set_ne k k' v fields :
  k ≠ k' → dict_lookup k' (dict_set k v fields) = dict_lookup k' fields.
Proof.
  intros Hne. induction fields as [|[k0 v0] rest IH]; simpl.
  - destruct (String.eqb k' k) eqn:E; [|reflexivity].
    apply String.eqb_eq in E; congruence.
  - destruct (String.eqb k k0) eqn:E; simpl.
    + apply String.eqb_eq in E; subst k0.
      destruct (String.eqb k' k) eqn:E'; [|reflexivity].
      apply String.eqb_eq in E'; congruence.
    + now rewrite IH.
Qed.

Lemma getitem_ok obj key v :
  getitem obj key = Ok v → ∃ fields, obj = JObj fields ∧ dict_lookup key fields = Some v.
Proof.
  destruct obj; simpl; try discriminate.
  destruct (dict_lookup key fields) eqn:E; [|discriminate].
  intros [= ->]; eauto.
Qed.

(** The four fixed keys of the flattened record hold the values of the
    operator, whatever [operatorProperties] holds. *)
Lemma new_operator_structural operator record k :
  new_operator operator = Ok record →
  k ∈ structural_fields →
  getitem record k = getitem operator k.
Proof.
  unfold new_operator. intros Hnew Hk. ok_inv Hnew.
  destruct a as [| | | | |fields]; try discriminate.
  ok_inv Hnew. injection Hnew as <-.
  unfold structural_fields in Hk.
  repeat (apply elem_of_cons in Hk as [->|Hk]);
    [ | | | | by apply elem_of_nil in Hk ]; simpl getitem at 1;
    repeat first [ rewrite dict_lookup_set_eq
                 | rewrite dict_lookup_set_ne by discriminate ];
    congruence.
Qed.

(** A key of [operatorProperties] that is none of the four fixed keys keeps
    its value in the flattened record. *)
Lemma new_operator_property operator fields record k :
  getitem operator "operatorProperties" = Ok (JObj fields) →
  new_operator operator = Ok record →
  k ∉ structural_fields →
  getitem record k = getitem (JObj fields) k.
Proof.
  unfold new_operator. intros Hprops Hnew Hk. rewrite Hprops in Hnew. simpl in Hnew.
  ok_inv Hnew. injection Hnew as <-.
  unfold structural_fields in Hk.
  simpl.
  rewrite !dict_lookup_set_ne; [reflexivity | | | |];
    intros <-; apply Hk; set_solver.
Qed.

(** *** Looking up operators and ports *)

Section Lookup.
Variables (test : json → result bool) (p : json → bool).
Hypothesis test_p : ∀ x b, test x = Ok b → p x = b.

Lemma next_where_ok items x :
  next_where test items = Ok x → ∃ k, first_at p items k x.
Proof.
  induction items as [|y rest IH]; simpl; [discriminate|].
  intros Hnext. apply rbind_ok in Hnext as (hit & Hy & Hnext).
  apply test_p in Hy. destruct hit.
  - injection Hnext as <-. exists 0%nat. split; [reflexivity|].
    split; [assumption|]. intros j z Hj; lia.
  - destruct (IH Hnext) as (k & Hk & Hx & Hbefore).
    exists (S k). split; [exact Hk|]. split; [exact Hx|].
    intros [|j] z Hj Hz; simpl in Hz.
    + congruence.
    + apply (Hbefore j); [lia | exact Hz].
Qed.

Lemma next_index_where_ok items i n :
  next_index_where test i items = Ok n →
  ∃ k x, n = (i + k)%nat ∧ first_at p items k x.
Proof.
  revert i. induction items as [|y rest IH]; simpl; intros i; [discriminate|].
  intros Hnext. apply rbind_ok in Hnext as (hit & Hy & Hnext).
  apply test_p in Hy. destruct hit.
  - injection Hnext as <-. exists 0%nat, y. split; [lia|].
    split; [reflexivity|]. split; [assumption|]. intros j z Hj; lia.
  - destruct (IH _ Hnext) as (k & x & -> & Hk & Hx & Hbefore).
    exists (S k), x. split; [lia|]. split; [exact Hk|]. split; [exact Hx|].
    intros [|j] z Hj Hz; simpl in Hz.
    + congruence.
    + apply (Hbefore j); [lia | exact Hz].
Qed.

(** When the test raises on no item, [next] returns as soon as an item
    passes it. *)
Hypothesis p_test : ∀ x, p x = true → test x = Ok true.

Lemma next_index_where_total items i :
  Forall (λ x, is_ok (test x) = true) items →
  existsb p items = true →
  ∃ n, next_index_where test i items = Ok n.
Proof.
  intros Hall. revert i. induction Hall as [|y rest Hy _ IH]; simpl; intros i;
    [discriminate|].
  destruct (test y) as [[]|e] eqn:E; try discriminate; simpl; eauto.
  intros Hex. apply IH. apply orb_prop in Hex as [Hp|Hex]; [|exact Hex].
  apply p_test in Hp. congruence.
Qed.

End Lookup.

(** For an id that is a string, [==] is identity. *)
Lemma has_id_string field s x :
  has_id field (JStr s) x = true ↔ getitem x field = Ok (JStr s).
Proof.
  unfold has_id. destruct (getitem x field) as [v|e]; [|split; discriminate].
  destruct v; simpl; try (split; discriminate).
  rewrite String.eqb_eq. split; congruence.
Qed.

Lemma id_test_sound field id x b :
  (let* v := getitem x field in Ok (py_eq v id)) = Ok b → has_id field id x = b.
Proof.
  unfold has_id. destruct (getitem x field); simpl; [|discriminate].
  now intros [= <-].
Qed.

Lemma id_test_complete field id x :
  has_id field id x = true → (let* v := getitem x field in Ok (py_eq v id)) = Ok true.
Proof.
  unfold has_id. destruct (getitem x field); simpl; [|discriminate].
  now intros ->.
Qed.

Lemma id_test_total field id x :
  has_field field x = true →
  is_ok (let* v := getitem x field in Ok (py_eq v id)) = true.
Proof. unfold has_field. destruct (getitem x field); simpl; [reflexivity|discriminate]. Qed.

(** A match of the test is a dict, so the iterable that yielded it is a list:
    the keys of a dict and the characters of a str are strs. *)
Lemma py_iter_list_of_match field id v items k x :
  py_iter v = Ok items → first_at (has_id field id) items k x → v = JArr items.
Proof.
  intros Hiter (Hk & Hx & _).
  assert (Hobj : ∃ fs, x = JObj fs).
  { unfold has_id in Hx. destruct (getitem x field) eqn:E; [|discriminate].
    apply getitem_ok in E as (fs & -> & _). eauto. }
  destruct Hobj as [fs ->].
  destruct v; simpl in Hiter; try discriminate; injection Hiter as <-.
  - apply list_lookup_fmap_Some in Hk as (? & ? & ?). discriminate.
  - reflexivity.
  - apply list_lookup_fmap_Some in Hk as (? & ? & ?). discriminate.
Qed.

Lemma find_operator_ok d opid op :
  find_operator d opid = Ok op →
  ∃ ops k, getitem d "operators" = Ok (JArr ops) ∧
           first_at (has_id "operatorID" opid) ops k op.
Proof.
  unfold find_operator. intros Hfind. ok_inv Hfind.
  apply (next_where_ok _ (has_id "operatorID" opid)) in Hfind as [k Hk];
    [|apply id_test_sound].
  pose proof (py_iter_list_of_match _ _ _ _ _ _ Ha0 Hk) as ->.
  eauto.
Qed.

Lemma port_ordinal_ok ports pid i :
  port_ordinal ports pid = Ok i →
  ∃ items port, ports = JArr items ∧ first_at (has_id "portID" pid) items i port.
Proof.
  unfold port_ordinal. intros Hord. ok_inv Hord.
  apply (next_index_where_ok _ (has_id "portID" pid)) in Hord as (k & x & -> & Hk);
    [|apply id_test_sound].
  pose proof (py_iter_list_of_match _ _ _ _ _ _ Ha Hk) as ->.
  simpl. eauto.
Qed.

Lemma get_output_port_ordinal_ok d ep opid pid i :
  getitem ep "operatorID" = Ok opid → getitem ep "portID" = Ok pid →
  get_output_port_ordinal d opid pid = Ok i →
  port_index_of (operators_of d) "outputPorts" ep i.
Proof.
  unfold get_output_port_ordinal. intros Hop Hpid Hord. ok_inv Hord.
  apply find_operator_ok in Ha as (ops & k & Hops & Hk).
  apply port_ordinal_ok in Hord as (items & port & -> & Hport).
  unfold port_index_of, operators_of. rewrite Hops.
  exists opid, pid, k, a, items, port. auto.
Qed.

Lemma get_input_port_ordinal_ok d ep opid pid i :
  getitem ep "operatorID" = Ok opid → getitem ep "portID" = Ok pid →
  get_input_port_ordinal d opid pid = Ok i →
  port_index_of (operators_of d) "inputPorts" ep i.
Proof.
  unfold get_input_port_ordinal. intros Hop Hpid Hord. ok_inv Hord.
  apply find_operator_ok in Ha as (ops & k & Hops & Hk).
  apply port_ordinal_ok in Hord as (items & port & -> & Hport).
  unfold port_index_of, operators_of. rewrite Hops.
  exists opid, pid, k, a, items, port. auto.
Qed.

Lemma new_link_ok d link record :
  new_link d link = Ok record → link_record (operators_of d) link record.
Proof.
  unfold new_link. intros Hnew. ok_inv Hnew. injection Hnew as <-.
  exists a, a3, a0, a4, a2, a6. unfold port_identity.
  eauto 10 using get_output_port_ordinal_ok, get_input_port_ordinal_ok.
Qed.

Lemma for_each_ok body items ys :
  for_each body items = Ok ys → Forall2 (λ x y, body x = Ok y) items ys.
Proof.
  revert ys. induction items as [|x rest IH]; simpl; intros ys Hfor.
  - injection Hfor as <-. constructor.
  - ok_inv Hfor. injection Hfor as <-. constructor; auto.
Qed.

Lemma for_each_total body items :
  Forall (λ x, is_ok (body x) = true) items → ∃ ys, for_each body items = Ok ys.
Proof.
  induction 1 as [|x rest Hx _ [ys IH]]; simpl; [eauto|].
  destruct (body x); [|discriminate]. simpl. rewrite IH. simpl. eauto.
Qed.

Section ConverterFacts.
Context {rt : Runtime}.

(** What a returned plan is made of. *)
Lemma convert_workflow_dict_ok d plan :
  convert_workflow_dict d = Ok plan →
  ∃ operators ops links lks plan_operators plan_links ids view reuse,
    get d "operators" (JArr []) = Ok operators ∧ py_iter operators = Ok ops ∧
    get d "links" (JArr []) = Ok links ∧ py_iter links = Ok lks ∧
    for_each new_operator ops = Ok plan_operators ∧
    for_each (new_link d) lks = Ok plan_links ∧
    operator_id_set ops [] = Ok ids ∧
    filter_ids d ids "opsToViewResult" = Ok view ∧
    filter_ids d ids "opsToReuseResult" = Ok reuse ∧
    plan = JObj [("operators", JArr plan_operators); ("links", JArr plan_links);
                 ("opsToReuseResult", reuse); ("opsToViewResult", view)].
Proof.
  unfold convert_workflow_dict. intros Hconv. ok_inv Hconv. injection Hconv as <-.
  assert (a5 = a) by congruence. subst a5.
  assert (a6 = a0) by congruence. subst a6.
  exists a, a0, a2, a3, a1, a4, a7, a8, a9. auto 10.
Qed.

End ConverterFacts.

(** *** A well-formed document is converted *)

Section LookupTotal.
Variables (test : json → result bool) (p : json → bool).
Hypothesis test_p : ∀ x b, test x = Ok b → p x = b.

Lemma next_where_find items x :
  Forall (λ y, is_ok (test y) = true) items →
  find p items = Some x → next_where test items = Ok x.
Proof.
  induction 1 as [|y rest Hy _ IH]; simpl; [discriminate|].
  destruct (test y) as [b|e] eqn:E; [|discriminate]. simpl.
  apply test_p in E. rewrite E. destruct b; [congruence | exact IH].
Qed.

End LookupTotal.

Lemma is_operator_fields op :
  is_operator op = true →
  ∃ props id ins outs,
    getitem op "operatorProperties" = Ok (JObj props) ∧
    getitem op "operatorID" = Ok id ∧ hashable id = true ∧
    has_field "operatorType" op = true ∧
    getitem op "inputPorts" = Ok ins ∧ is_port_list ins = true ∧
    getitem op "outputPorts" = Ok outs ∧ is_port_list outs = true.
Proof.
  unfold is_operator. intros Hop.
  destruct (getitem op "operatorProperties") as [[| | | | |props]|]; try discriminate.
  destruct (getitem op "operatorID") as [id|]; [|discriminate].
  destruct (getitem op "inputPorts") as [ins|]; [|discriminate].
  destruct (getitem op "outputPorts") as [outs|]; [|discriminate].
  repeat (apply andb_prop in Hop as [Hop ?]).
  exists props, id, ins, outs. auto 10.
Qed.

Lemma new_operator_total op : is_operator op = true → is_ok (new_operator op) = true.
Proof.
  intros (props & id & ins & outs & Hprops & Hid & _ & Hty & Hins & _ & Houts & _)%is_operator_fields.
  unfold new_operator, has_field in *. rewrite Hprops. simpl. rewrite Hid. simpl.
  destruct (getitem op "operatorType"); [|discriminate]. simpl.
  rewrite Hins. simpl. rewrite Houts. reflexivity.
Qed.

Lemma is_port_list_ports v :
  is_port_list v = true →
  ∃ ports, v = JArr ports ∧ Forall (λ x, has_field "portID" x = true) ports.
Proof.
  destruct v as [| | | |ports|]; simpl; try discriminate. intros Hall.
  exists ports. split; [reflexivity|]. apply Forall_forall. intros x Hx.
  rewrite forallb_forall in Hall. apply Hall. now apply list_elem_of_In.
Qed.

Lemma port_ordinal_total v pid :
  is_port_list v = true →
  (∃ ports, v = JArr ports ∧ existsb (has_id "portID" pid) ports = true) →
  is_ok (port_ordinal v pid) = true.
Proof.
  intros (ports & -> & Hall)%is_port_list_ports (ports' & [= <-] & Hex).
  unfold port_ordinal. simpl.
  destruct (next_index_where_total _ (has_id "portID" pid)
              (id_test_complete "portID" pid) ports 0%nat) as [n ->];
    [|exact Hex|reflexivity].
  eapply Forall_impl; [exact Hall|]. intros x. apply id_test_total.
Qed.

Lemma find_operator_total d ops opid op :
  getitem d "operators" = Ok (JArr ops) →
  Forall (λ x, is_operator x = true) ops →
  find (has_id "operatorID" opid) ops = Some op →
  find_operator d opid = Ok op.
Proof.
  intros Hops Hall Hfind. unfold find_operator. rewrite Hops. simpl.
  apply (next_where_find _ (has_id "operatorID" opid)); [apply id_test_sound| |exact Hfind].
  eapply Forall_impl; [exact Hall|]. intros x Hx. apply id_test_total.
  apply is_operator_fields in Hx as (? & id & ? & ? & _ & Hid & _).
  unfold has_field. now rewrite Hid.
Qed.

Lemma endpoint_total d ops side ep :
  getitem d "operators" = Ok (JArr ops) →
  Forall (λ x, is_operator x = true) ops →
  side = "inputPorts" ∨ side = "outputPorts" →
  endpoint_resolves ops side ep = true →
  ∃ opid pid op ports,
    getitem ep "operatorID" = Ok opid ∧ getitem ep "portID" = Ok pid ∧
    find_operator d opid = Ok op ∧ getitem op side = Ok ports ∧
    is_ok (port_ordinal ports pid) = true.
Proof.
  intros Hops Hall Hside. unfold endpoint_resolves.
  destruct (getitem ep "operatorID") as [opid|]; [|discriminate].
  destruct (getitem ep "portID") as [pid|]; [|discriminate].
  destruct (find (has_id "operatorID" opid) ops) as [op|] eqn:Hfind; [|discriminate].
  destruct (getitem op side) as [[| | | |ports|]|] eqn:Hports; try discriminate.
  intros Hex. exists opid, pid, op, (JArr ports).
  repeat split; eauto using find_operator_total.
  apply port_ordinal_total; [|eauto].
  assert (Hop : is_operator op = true).
  { apply find_some in Hfind as [Hin _]. rewrite Forall_forall in Hall.
    apply Hall. now apply list_elem_of_In. }
  apply is_operator_fields in Hop as (? & ? & ins & outs & _ & _ & _ & _ & Hins & Hpins & Houts & Hpouts).
  destruct Hside as [-> | ->]; congruence.
Qed.

Lemma new_link_total d ops link :
  getitem d "operators" = Ok (JArr ops) →
  Forall (λ x, is_operator x = true) ops →
  link_resolves ops link = true →
  is_ok (new_link d link) = true.
Proof.
  intros Hops Hall. unfold link_resolves, new_link.
  destruct (getitem link "source") as [source|]; [|discriminate].
  destruct (getitem link "target") as [target|]; [|discriminate].
  intros [Hsrc Htgt]%andb_prop.
  destruct (endpoint_total d ops "outputPorts" source Hops Hall (or_intror eq_refl) Hsrc)
    as (fromOp & fromPort & sop & souts & HfromOp & HfromPort & Hsop & Hsouts & Hsord).
  destruct (endpoint_total d ops "inputPorts" target Hops Hall (or_introl eq_refl) Htgt)
    as (toOp & toPort & top & tins & HtoOp & HtoPort & Htop & Htins & Htord).
  simpl. rewrite HfromOp. simpl. rewrite HfromPort. simpl.
  unfold get_output_port_ordinal. rewrite Hsop. simpl. rewrite Hsouts. simpl.
  destruct (port_ordinal souts fromPort); [|discriminate]. simpl.
  rewrite HtoOp. simpl. rewrite HtoPort. simpl.
  unfold get_input_port_ordinal. rewrite Htop. simpl. rewrite Htins. simpl.
  destruct (port_ordinal tins toPort); [|discriminate].
  reflexivity.
Qed.

Lemma operator_id_set_total ops so :
  Forall (λ x, is_operator x = true) ops → ∃ ids, operator_id_set ops so = Ok ids.
Proof.
  intros Hall. revert so. induction Hall as [|op rest Hop _ IH]; simpl; intros so; [eauto|].
  apply is_operator_fields in Hop as (? & id & ? & ? & _ & Hid & Hhash & _).
  rewrite Hid. simpl. rewrite Hhash. apply IH.
Qed.

Lemma intersection_loop_total so others acc :
  Forall (λ x, hashable x = true) others → ∃ kept, intersection_loop so others acc = Ok kept.
Proof.
  intros Hall. revert acc.
  induction Hall as [|key rest Hkey _ IH]; simpl; intros acc; [eauto|].
  rewrite Hkey. destruct (set_contains so key); [|apply IH].
  destruct (length so <=? length (set_add_entry acc key))%nat; [eauto|apply IH].
Qed.

Section ConverterTotal.
Context {rt : Runtime}.

Lemma filter_ids_total fields ids field :
  is_id_list (dict_lookup field fields) = true →
  ∃ v, filter_ids (JObj fields) ids field = Ok v.
Proof.
  unfold filter_ids, get, is_id_list.
  destruct (dict_lookup field fields) as [[| | | |wanted|]|]; try discriminate; simpl.
  - intros Hall. unfold intersection. simpl.
    destruct (intersection_loop_total ids wanted []) as [kept ->]; [|simpl; eauto].
    apply Forall_forall. intros x Hx. rewrite forallb_forall in Hall.
    apply Hall. now apply list_elem_of_In.
  - intros _. unfold intersection. simpl. eauto.
Qed.

Lemma convert_workflow_dict_total d :
  user_workflow_document d = true →
  forallb (link_resolves (operators_of d)) (links_of d) = true →
  ∃ plan, convert_workflow_dict d = Ok plan.
Proof.
  unfold user_workflow_document, operators_of, links_of.
  destruct d as [| | | | |fields]; try discriminate.
  simpl getitem.
  destruct (dict_lookup "operators" fields) as [[| | | |ops|]|] eqn:Hops; try discriminate.
  destruct (dict_lookup "links" fields) as [[| | | |links|]|] eqn:Hlinks; try discriminate.
  intros Hshape Hres.
  repeat (apply andb_prop in Hshape as [Hshape ?]).
  assert (Hall : Forall (λ x, is_operator x = true) ops).
  { apply Forall_forall. intros x Hx. rewrite forallb_forall in Hshape.
    apply Hshape. now apply list_elem_of_In. }
  unfold convert_workflow_dict. simpl get. rewrite Hops, Hlinks. simpl.
  destruct (for_each_total new_operator ops) as [plan_operators ->].
  { eapply Forall_impl; [exact Hall|]. intros x. apply new_operator_total. }
  simpl.
  destruct (for_each_total (new_link (JObj fields)) links) as [plan_links ->].
  { apply Forall_forall. intros x Hx. rewrite forallb_forall in Hres.
    apply (new_link_total _ ops); [simpl; now rewrite Hops|exact Hall|].
    apply Hres. now apply list_elem_of_In. }
  simpl.
  destruct (operator_id_set_total ops [] Hall) as [ids ->]. simpl.
  destruct (filter_ids_total fields ids "opsToViewResult") as [view ->]; [assumption|].
  destruct (filter_ids_total fields ids "opsToReuseResult") as [reuse ->]; [assumption|].
  simpl. eauto.
Qed.

End ConverterTotal.

Lemma first_at_find {A} (p : A → bool) (l : list A) k x :
  first_at p l k x → find p l = Some x.
Proof.
  revert k. induction l as [|y rest IH]; intros k (Hk & Hx & Hbefore).
  - destruct k; discriminate.
  - simpl. destruct k as [|k]; simpl in Hk.
    + injection Hk as ->. now rewrite Hx.
    + rewrite (Hbefore 0%nat y) by (lia || reflexivity).
      apply (IH k). repeat split; [exact Hk|exact Hx|].
      intros j z Hj Hz. apply (Hbefore (S j)); [lia|exact Hz].
Qed.

Lemma first_at_existsb {A} (p : A → bool) (l : list A) k x :
  first_at p l k x → existsb p l = true.
Proof.
  intros (Hk & Hx & _). apply existsb_exists. exists x. split; [|exact Hx].
  apply list_elem_of_In. eapply list_elem_of_lookup_2. exact Hk.
Qed.

(** An endpoint that has an index does not dangle. *)
Lemma port_index_of_not_dangling ops side ep i :
  port_index_of ops side ep i → endpoint_dangles ops side ep = false.
Proof.
  intros (opid & pid & k & op & ports & port & Hop & Hpid & Hk & Hports & Hi).
  unfold endpoint_dangles. rewrite Hop, Hpid, (first_at_find _ _ _ _ Hk), Hports.
  now rewrite (first_at_existsb _ _ _ _ Hi).
Qed.

Lemma link_record_not_dangling ops link record :
  link_record ops link record → link_dangles ops link = false.
Proof.
  intros (source & target & fromOp & toOp & i & j & Hs & Ht & _ & _ & Hi & Hj & _).
  unfold link_dangles. rewrite Hs, Ht.
  now rewrite (port_index_of_not_dangling _ _ _ _ Hi), (port_index_of_not_dangling _ _ _ _ Hj).
Qed.

Lemma links_of_elem d link :
  link ∈ links_of d →
  get d "links" (JArr []) = Ok (JArr (links_of d)) ∧ py_iter (JArr (links_of d)) = Ok (links_of d).
Proof.
  unfold links_of. destruct d as [| | | | |fields]; simpl; try (intros []%elem_of_nil).
  destruct (dict_lookup "links" fields) as [[| | | |links|]|]; try (intros []%elem_of_nil).
  auto.
Qed.

(** In a document of the right shape a lookup either returns or runs out
    of candidates. *)
Lemma next_where_stops test items :
  Forall (λ y, is_ok (test y) = true) items →
  is_ok (next_where test items) = true ∨ next_where test items = Raise StopIteration.
Proof.
  induction 1 as [|y rest Hy _ IH]; simpl; [auto|].
  destruct (test y) as [[]|]; try discriminate; simpl; auto.
Qed.

Lemma next_index_where_stops test i items :
  Forall (λ y, is_ok (test y) = true) items →
  is_ok (next_index_where test i items) = true ∨
  next_index_where test i items = Raise StopIteration.
Proof.
  intros Hall. revert i. induction Hall as [|y rest Hy _ IH]; simpl; intros i; [auto|].
  destruct (test y) as [[]|]; try discriminate; simpl; auto.
Qed.

Lemma find_operator_stops d ops opid :
  getitem d "operators" = Ok (JArr ops) →
  Forall (λ x, is_operator x = true) ops →
  (∃ op, find_operator d opid = Ok op ∧ is_operator op = true) ∨
  find_operator d opid = Raise StopIteration.
Proof.
  intros Hops Hall. unfold find_operator. rewrite Hops. simpl.
  set (test := λ op, let* id := getitem op "operatorID" in Ok (py_eq id opid)).
  destruct (next_where_stops test ops) as [Hok|Hstop]; [| |now right].
  - eapply Forall_impl; [exact Hall|]. intros x Hx. apply id_test_total.
    apply is_operator_fields in Hx as (? & id & ? & ? & _ & Hid & _).
    unfold has_field. now rewrite Hid.
  - left. destruct (next_where test ops) as [op|] eqn:Hnext; [|discriminate].
    exists op. split; [reflexivity|].
    apply (next_where_ok _ (has_id "operatorID" opid)) in Hnext as (k & Hk & _);
      [|apply id_test_sound].
    rewrite Forall_forall in Hall. apply Hall. eapply list_elem_of_lookup_2. exact Hk.
Qed.

Lemma port_ordinal_stops v pid :
  is_port_list v = true →
  is_ok (port_ordinal v pid) = true ∨ port_ordinal v pid = Raise StopIteration.
Proof.
  intros (ports & -> & Hall)%is_port_list_ports. unfold port_ordinal. simpl.
  apply next_index_where_stops.
  eapply Forall_impl; [exact Hall|]. intros x. apply id_test_total.
Qed.

Lemma is_endpoint_fields ep :
  is_endpoint ep = true →
  ∃ opid pid, getitem ep "operatorID" = Ok opid ∧ getitem ep "portID" = Ok pid.
Proof.
  unfold is_endpoint, has_field. intros [Hop Hpid]%andb_prop.
  destruct (getitem ep "operatorID") as [opid|]; [|discriminate].
  destruct (getitem ep "portID") as [pid|]; [|discriminate]. eauto.
Qed.

Lemma new_link_stops d ops link :
  getitem d "operators" = Ok (JArr ops) →
  Forall (λ x, is_operator x = true) ops →
  is_link link = true →
  is_ok (new_link d link) = true ∨ new_link d link = Raise StopIteration.
Proof.
  intros Hops Hall. unfold is_link, new_link.
  destruct (getitem link "source") as [source|]; [|discriminate].
  destruct (getitem link "target") as [target|]; [|discriminate].
  intros [Hsrc Htgt]%andb_prop.
  apply is_endpoint_fields in Hsrc as (fromOp & fromPort & HfromOp & HfromPort).
  apply is_endpoint_fields in Htgt as (toOp & toPort & HtoOp & HtoPort).
  simpl. rewrite HfromOp. simpl. rewrite HfromPort. simpl.
  unfold get_output_port_ordinal.
  destruct (find_operator_stops d ops fromOp Hops Hall) as [(sop & -> & Hsop)| ->];
    [|now right].
  simpl.
  apply is_operator_fields in Hsop as (? & ? & ? & souts & _ & _ & _ & _ & _ & _ & -> & Hsouts).
  simpl. destruct (port_ordinal_stops souts fromPort Hsouts) as [Hok| ->]; [|now right].
  destruct (port_ordinal souts fromPort) as [i|]; [|discriminate]. simpl.
  rewrite HtoOp. simpl. rewrite HtoPort. simpl.
  unfold get_input_port_ordinal.
  destruct (find_operator_stops d ops toOp Hops Hall) as [(top & -> & Htop)| ->];
    [|now right].
  simpl.
  apply is_operator_fields in Htop as (? & ? & tins & ? & _ & _ & _ & _ & -> & Htins & _).
  simpl. destruct (port_ordinal_stops tins toPort Htins) as [Hok'| ->]; [|now right].
  destruct (port_ordinal tins toPort) as [j|]; [|discriminate]. now left.
Qed.

Lemma for_each_stops body items :
  Forall (λ x, is_ok (body x) = true ∨ body x = Raise StopIteration) items →
  is_ok (for_each body items) = true ∨ for_each body items = Raise StopIteration.
Proof.
  induction 1 as [|x rest [Hx|Hx] _ IH]; simpl; [auto| |rewrite Hx; auto].
  destruct (body x); [|discriminate]. simpl.
  destruct IH as [IH|IH]; [|rewrite IH; auto].
  destruct (for_each body rest); [|discriminate]. auto.
Qed.

Section ConverterClaims.
Context {rt : Runtime}.

(** C1. For every User Workflow Document in which every link endpoint
    references an existing operator and port, the conversion returns a plan
    whose [links] hold, for each link of the document and in the same order,
    the record [{fromOpId, fromPortId: {id, internal: false}, toOpId,
    toPortId: {id, internal: false}}] in which [fromPortId.id] is the
    zero-based index of the source [portID] within the [outputPorts] of the
    source operator and [toPortId.id] the zero-based index of the target
    [portID] within the [inputPorts] of the target operator. *)
Theorem link_records_carry_port_ordinals raw d :
  json_loads raw = Ok d →
  user_workflow_document d = true →
  forallb (link_resolves (operators_of d)) (links_of d) = true →
  ∃ plan plan_links,
    convertWorkflowContentToLogicalPlan raw = Ok plan ∧
    getitem plan "links" = Ok (JArr plan_links) ∧
    Forall2 (link_record (operators_of d)) (links_of d) plan_links.
Proof.
  intros Hloads Hshape Hres.
  destruct (convert_workflow_dict_total d Hshape Hres) as [plan Hplan].
  destruct (convert_workflow_dict_ok d plan Hplan)
    as (operators & ops & links & lks & plan_operators & plan_links & ids & view & reuse
        & _ & _ & Hlinks & Hlks & _ & Hfor & _ & _ & _ & ->).
  exists (JObj [("operators", JArr plan_operators); ("links", JArr plan_links);
                ("opsToReuseResult", reuse); ("opsToViewResult", view)]), plan_links.
  split; [unfold convertWorkflowContentToLogicalPlan; now rewrite Hloads|].
  split; [reflexivity|].
  assert (lks = links_of d) as ->.
  { unfold user_workflow_document in Hshape. unfold links_of.
    destruct d as [| | | | |fields]; try discriminate. simpl in *.
    destruct (dict_lookup "operators" fields) as [[| | | |?|]|]; try discriminate.
    destruct (dict_lookup "links" fields) as [[| | | |?|]|]; try discriminate.
    injection Hlinks as <-. simpl in Hlks. congruence. }
  apply for_each_ok in Hfor.
  eapply Forall2_impl; [exact Hfor|]. intros link record. apply new_link_ok.
Qed.

(** C6. A document that contains a link whose source [portID] has no equal
    among the [outputPorts] of its source operator, or whose target [portID]
    has no equal among the [inputPorts] of its target operator, or one of
    whose endpoints names no operator, is not converted: the conversion
    raises.  When the document has the shape of a User Workflow Document the
    exception is the [StopIteration] of the failed lookup. *)
Theorem dangling_link_raises raw d link :
  json_loads raw = Ok d →
  link ∈ links_of d →
  link_dangles (operators_of d) link = true →
  (∃ e, convertWorkflowContentToLogicalPlan raw = Raise e) ∧
  (user_workflow_document d = true →
   convertWorkflowContentToLogicalPlan raw = Raise StopIteration).
Proof.
  intros Hloads Hin Hdangles.
  unfold convertWorkflowContentToLogicalPlan. rewrite Hloads. simpl.
  assert (Hnot : ∀ plan, convert_workflow_dict d ≠ Ok plan).
  { intros plan Hplan.
    destruct (convert_workflow_dict_ok d plan Hplan)
      as (operators & ops & links & lks & plan_operators & plan_links & ids & view & reuse
          & _ & _ & Hlinks & Hlks & _ & Hfor & _).
    destruct (links_of_elem d link Hin) as [Hget Hiter].
    assert (lks = links_of d) as -> by congruence.
    apply for_each_ok in Hfor.
    apply list_elem_of_lookup in Hin as [n Hn].
    destruct (Forall2_lookup_l _ _ _ _ _ Hfor Hn) as (record & _ & Hrecord).
    apply new_link_ok, link_record_not_dangling in Hrecord. congruence. }
  split.
  - destruct (convert_workflow_dict d) as [plan|e]; [now destruct (Hnot plan)|eauto].
  - intros Hshape. unfold user_workflow_document in Hshape.
    unfold links_of in Hin. unfold convert_workflow_dict in *.
    destruct d as [| | | | |fields]; try discriminate. simpl in Hin. simpl get in *.
    destruct (dict_lookup "operators" fields) as [[| | | |ops|]|] eqn:Hops; try discriminate.
    destruct (dict_lookup "links" fields) as [[| | | |links|]|] eqn:Hlinks; try discriminate.
    repeat (apply andb_prop in Hshape as [Hshape ?]).
    assert (Hall : Forall (λ x, is_operator x = true) ops).
    { apply Forall_forall. intros x Hx. rewrite forallb_forall in Hshape.
      apply Hshape. now apply list_elem_of_In. }
    simpl in *.
    destruct (for_each_total new_operator ops) as [plan_operators Hpo].
    { eapply Forall_impl; [exact Hall|]. intros x. apply new_operator_total. }
    rewrite Hpo in *. simpl in *.
    destruct (for_each_stops (new_link (JObj fields)) links) as [Hok| ->]; [| |reflexivity].
    + apply Forall_forall. intros x Hx.
      apply (new_link_stops _ ops); [simpl; now rewrite Hops|exact Hall|].
      match goal with Hl : forallb is_link links = true |- _ =>
        rewrite forallb_forall in Hl; apply Hl end.
      now apply list_elem_of_In.
    + exfalso. destruct (for_each (new_link (JObj fields)) links) as [plan_links|] eqn:Hfor;
        [|discriminate].
      apply for_each_ok in Hfor.
      apply list_elem_of_lookup in Hin as [n Hn].
      destruct (Forall2_lookup_l _ _ _ _ _ Hfor Hn) as (record & _ & Hrecord).
      apply new_link_ok, link_record_not_dangling in Hrecord.
      unfold operators_of in Hdangles, Hrecord. simpl in Hdangles, Hrecord.
      rewrite Hops in Hdangles, Hrecord. congruence.
Qed.

End ConverterClaims.

(** *** Sets of ids *)

Lemma py_eq_key a b :
  hashable a = true → hashable b = true → py_eq a b = true ↔ key_of a = key_of b.
Proof.
  destruct a as [|x|m|s| |], b as [|y|n|t| |]; cbn [py_eq key_of hashable];
    try discriminate; intros _ _;
    rewrite ?Z.eqb_eq, ?String.eqb_eq, ?Bool.eqb_true_iff; try (split; congruence).
  destruct x, y; cbn; split; congruence.
Qed.

Lemma py_eq_hashable a b : hashable a = true → py_eq a b = true → hashable b = true.
Proof. destruct a, b; simpl; congruence. Qed.

Lemma set_contains_hashable so x :
  Forall (λ y, hashable y = true) so → set_contains so x = true → hashable x = true.
Proof.
  intros Hso (m & Hm & Heq)%existsb_exists.
  rewrite Forall_forall in Hso. eapply py_eq_hashable; [|exact Heq].
  apply Hso. now apply list_elem_of_In.
Qed.

Lemma set_contains_key so x :
  Forall (λ y, hashable y = true) so → hashable x = true →
  set_contains so x = true ↔ key_of x ∈ key_of <$> so.
Proof.
  intros Hso Hx. rewrite Forall_forall in Hso. unfold set_contains.
  rewrite existsb_exists, list_elem_of_fmap. split.
  - intros (m & Hm%list_elem_of_In & Heq). exists m. split; [|exact Hm].
    symmetry. apply py_eq_key; auto.
  - intros (m & Hkey & Hm). exists m. split; [now apply list_elem_of_In|].
    apply py_eq_key; auto.
Qed.

Lemma set_add_entry_elem so x y :
  y ∈ set_add_entry so x ↔ y ∈ so ∨ (y = x ∧ set_contains so x = false).
Proof.
  unfold set_add_entry. destruct (set_contains so x).
  - split; [auto | intros [?|[_ [=]]]; assumption].
  - rewrite elem_of_app, list_elem_of_singleton. tauto.
Qed.

Lemma set_add_entry_is_set so x :
  is_set so → hashable x = true → is_set (set_add_entry so x).
Proof.
  intros [Hso Hnodup] Hx. unfold set_add_entry.
  destruct (set_contains so x) eqn:Hin; [now split|]. split.
  - apply Forall_app. split; [exact Hso|]. now repeat constructor.
  - rewrite fmap_app. apply NoDup_app. repeat split; [exact Hnodup| |apply NoDup_singleton].
    intros k Hk [->|[]%elem_of_nil]%elem_of_cons.
    apply set_contains_key in Hk; [congruence|exact Hso|exact Hx].
Qed.

Lemma set_add_entry_contains so x y :
  is_set so → hashable x = true →
  set_contains (set_add_entry so x) y = set_contains so y || py_eq x y.
Proof.
  intros [Hso _] Hx. unfold set_add_entry.
  destruct (set_contains so x) eqn:Hin.
  - destruct (py_eq x y) eqn:Hxy; [|now rewrite orb_false_r].
    rewrite orb_true_r.
    pose proof (py_eq_hashable _ _ Hx Hxy) as Hy.
    apply set_contains_key; [exact Hso|exact Hy|].
    apply (py_eq_key _ _ Hx Hy) in Hxy as <-. now apply set_contains_key.
  - unfold set_contains. rewrite existsb_app. simpl. now rewrite orb_false_r.
Qed.

(** What [operator_id_set] collects. *)
Lemma operator_id_set_spec ops so ids :
  operator_id_set ops so = Ok ids → is_set so →
  is_set ids ∧
  ∀ x, set_contains ids x = set_contains so x || names_operator ops x.
Proof.
  revert so. induction ops as [|op rest IH]; simpl; intros so Hids Hso.
  - injection Hids as <-. split; [exact Hso|]. intros x. now rewrite orb_false_r.
  - apply rbind_ok in Hids as (id & Hid & Hids).
    destruct (hashable id) eqn:Hhash; [|discriminate].
    destruct (IH _ Hids (set_add_entry_is_set _ _ Hso Hhash)) as [Hset Hcontains].
    split; [exact Hset|]. intros x.
    rewrite Hcontains, set_add_entry_contains by assumption.
    unfold has_id at 1. rewrite Hid. now rewrite orb_assoc.
Qed.

(** A set that lies within [so] and is as large as [so] covers it. *)
Lemma full_subset_covers so acc x :
  is_set so → is_set acc →
  (∀ y, y ∈ acc → set_contains so y = true) →
  (length so ≤ length acc)%nat →
  set_contains so x = true → ∃ y, y ∈ acc ∧ py_eq y x = true.
Proof.
  intros [Hso _] [Hacc Hnodup] Hsub Hlen Hx.
  pose proof (set_contains_hashable _ _ Hso Hx) as Hhash.
  assert (Hperm : key_of <$> acc ≡ₚ key_of <$> so).
  { apply submseteq_length_Permutation; [|now rewrite !length_fmap].
    apply NoDup_submseteq; [exact Hnodup|].
    intros k (y & -> & Hy)%list_elem_of_fmap.
    apply set_contains_key; [exact Hso| |now apply Hsub].
    rewrite Forall_forall in Hacc. now apply Hacc. }
  apply set_contains_key in Hx; [|exact Hso|exact Hhash].
  rewrite <- Hperm in Hx. apply list_elem_of_fmap in Hx as (y & Hkey & Hy).
  exists y. split; [exact Hy|]. apply py_eq_key; [|exact Hhash|now symmetry].
  rewrite Forall_forall in Hacc. now apply Hacc.
Qed.

Lemma intersection_loop_spec so others acc out :
  is_set so → is_set acc →
  (∀ y, y ∈ acc → set_contains so y = true) →
  intersection_loop so others acc = Ok out →
  is_set out ∧
  (∀ y, y ∈ out → set_contains so y = true ∧ (y ∈ acc ∨ y ∈ others)) ∧
  (∀ y, y ∈ acc → y ∈ out) ∧
  (∀ x, x ∈ others → set_contains so x = true → ∃ y, y ∈ out ∧ py_eq y x = true).
Proof.
  intros Hso. revert acc.
  induction others as [|key rest IH]; simpl; intros acc Hacc Hsub Hloop.
  - injection Hloop as <-. refine (conj Hacc (conj _ (conj _ _))); [auto|auto|].
    intros x []%elem_of_nil.
  - destruct (hashable key) eqn:Hhash; [|discriminate].
    destruct (set_contains so key) eqn:Hin.
    + set (acc' := set_add_entry acc key) in *.
      assert (Hacc' : is_set acc') by now apply set_add_entry_is_set.
      assert (Hsub' : ∀ y, y ∈ acc' → set_contains so y = true).
      { intros y [Hy|[-> _]]%set_add_entry_elem; auto. }
      assert (Hgrow : ∀ y, y ∈ acc' → y ∈ acc ∨ y ∈ key :: rest).
      { intros y [Hy|[-> _]]%set_add_entry_elem; [auto|].
        right. apply elem_of_cons. auto. }
      assert (Hkey : ∃ y, y ∈ acc' ∧ py_eq y key = true).
      { destruct (set_contains acc key) eqn:Hk.
        - apply existsb_exists in Hk as (m & Hm%list_elem_of_In & Heq).
          exists m. split; [|exact Heq]. apply set_add_entry_elem. auto.
        - exists key. split; [apply set_add_entry_elem; auto|].
          apply py_eq_key; auto. }
      destruct (length so <=? length acc')%nat eqn:Hlen.
      * injection Hloop as <-. apply Nat.leb_le in Hlen.
        refine (conj Hacc' (conj _ (conj _ _))).
        -- intros y Hy. auto.
        -- intros y Hy. apply set_add_entry_elem. auto.
        -- intros x _ Hx. now apply (full_subset_covers so).
      * destruct (IH acc' Hacc' Hsub' Hloop) as (Hout & Hfrom & Hmono & Hcover).
        refine (conj Hout (conj _ (conj _ _))).
        -- intros y Hy. destruct (Hfrom y Hy) as [Hy1 [Hy2|Hy2]].
           ++ auto.
           ++ split; [exact Hy1|]. right. apply elem_of_cons. auto.
        -- intros y Hy. apply Hmono, set_add_entry_elem. auto.
        -- intros x [->|Hx]%elem_of_cons Hxin; [|auto].
           destruct Hkey as (y & Hy & Heq). eauto.
    + destruct (IH acc Hacc Hsub Hloop) as (Hout & Hfrom & Hmono & Hcover).
      refine (conj Hout (conj _ (conj Hmono _))).
      * intros y Hy. destruct (Hfrom y Hy) as [Hy1 [Hy2|Hy2]]; [auto|].
        split; [exact Hy1|]. right. apply elem_of_cons. auto.
      * intros x [->|Hx]%elem_of_cons Hxin; [congruence|auto].
Qed.

(** The operators that a successful conversion went through are the list
    under ["operators"]; anything else that can be iterated without failure
    is empty. *)
Lemma converted_operators d operators ops plan_operators :
  get d "operators" (JArr []) = Ok operators → py_iter operators = Ok ops →
  for_each new_operator ops = Ok plan_operators →
  ops = operators_of d.
Proof.
  unfold get, operators_of, getitem. destruct d as [| | | | |fields]; try discriminate.
  destruct (dict_lookup "operators" fields) as [v|]; intros [= <-].
  - destruct v as [| | |s|l|fs]; simpl; try discriminate; intros [= <-]; [|reflexivity|].
    + destruct (utf8_chars s); [reflexivity|discriminate].
    + destruct fs; [reflexivity|discriminate].
  - now intros [= <-].
Qed.

Lemma is_set_distinct out : is_set out → distinct out.
Proof.
  intros [Hhash Hnodup] i j y z Hi Hj Heq. rewrite Forall_forall in Hhash.
  apply py_eq_key in Heq; [|eauto using list_elem_of_lookup_2..].
  eapply NoDup_lookup; [exact Hnodup| |].
  - rewrite list_lookup_fmap, Hi. reflexivity.
  - rewrite list_lookup_fmap, Hj. simpl. now rewrite Heq.
Qed.

Lemma is_set_perm so out : out ≡ₚ so → is_set so → is_set out.
Proof.
  intros Hperm [Hhash Hnodup]. split.
  - now rewrite Hperm.
  - now rewrite Hperm.
Qed.

Section IdLists.
Context {rt : Runtime}.

Lemma filter_ids_spec d ops ids field v :
  is_set ids → (∀ x, set_contains ids x = names_operator ops x) →
  filter_ids d ids field = Ok v →
  ∃ out, v = JArr out ∧ is_intersection ops (listed_ids d field) out ∧
         (has_field field d = false → out = []).
Proof.
  intros Hids Hnames. unfold filter_ids, intersection. intros Hfilter.
  apply rbind_ok in Hfilter as (wanted & Ha & Hfilter).
  apply rbind_ok in Hfilter as (kept & Ha0 & Hfilter).
  apply rbind_ok in Ha0 as (others & Ha1 & Ha0).
  injection Hfilter as <-.
  destruct (intersection_loop_spec ids others [] kept Hids) as (Hkept & Hfrom & _ & Hcover);
    [split; constructor|intros y []%elem_of_nil|assumption|].
  pose proof (set_order_perm kept) as Hperm.
  exists (set_order kept). split; [reflexivity|].
  assert (Hlisted : listed_ids d field = others).
  { unfold listed_ids. now rewrite Ha, Ha1. }
  rewrite Hlisted. split; [split; [|split]|].
  - intros y Hy. rewrite Hperm in Hy. destruct (Hfrom y Hy) as [Hin [[]%elem_of_nil|Hy']].
    rewrite <- Hnames. auto.
  - intros x Hx Hop. rewrite <- Hnames in Hop.
    destruct (Hcover x Hx Hop) as (y & Hy & Heq). exists y. now rewrite Hperm.
  - apply is_set_distinct. now apply (is_set_perm kept).
  - intros Habsent. unfold has_field, getitem in Habsent. unfold get in Ha.
    destruct d as [| | | | |fields]; try discriminate.
    destruct (dict_lookup field fields); [discriminate|].
    injection Ha as <-. injection Ha1 as <-. injection Ha0 as <-.
    now apply Permutation_nil_r in Hperm.
Qed.

(** C3. The lists [opsToViewResult] and [opsToReuseResult] of a converted
    plan are, as sets, the ids listed by the document that name one of its
    operators: every member is listed and names an operator, every listed id
    that names an operator has an equal in the list, and no two members are
    equal.  An id that names no operator is dropped, and a list whose field
    is absent from the document is empty. *)
Theorem id_lists_are_intersections raw d plan field :
  json_loads raw = Ok d →
  convertWorkflowContentToLogicalPlan raw = Ok plan →
  field = "opsToViewResult" ∨ field = "opsToReuseResult" →
  ∃ out, getitem plan field = Ok (JArr out) ∧
         is_intersection (operators_of d) (listed_ids d field) out ∧
         (has_field field d = false → out = []).
Proof.
  intros Hloads Hconv Hfield.
  unfold convertWorkflowContentToLogicalPlan in Hconv. rewrite Hloads in Hconv.
  simpl in Hconv.
  destruct (convert_workflow_dict_ok d plan Hconv)
    as (operators & ops & links & lks & plan_operators & plan_links & ids & view & reuse
        & Hoperators & Hops & _ & _ & Hfor & _ & Hids & Hview & Hreuse & ->).
  pose proof (converted_operators _ _ _ _ Hoperators Hops Hfor) as ->.
  destruct (operator_id_set_spec _ _ _ Hids) as [Hset Hnames]; [split; constructor|].
  simpl in Hnames.
  destruct Hfield as [-> | ->].
  - destruct (filter_ids_spec _ _ _ _ _ Hset Hnames Hview) as (out & -> & Hout).
    exists out. split; [reflexivity|exact Hout].
  - destruct (filter_ids_spec _ _ _ _ _ Hset Hnames Hreuse) as (out & -> & Hout).
    exists out. split; [reflexivity|exact Hout].
Qed.

End IdLists.

(** *** The examples of the converter *)

Lemma link_records_carry_port_ordinals_witness :
  ∃ plan plan_links,
    convertWorkflowContentToLogicalPlan (rt := interpreter) (dumps workflow) = Ok plan ∧
    getitem plan "links" = Ok (JArr plan_links) ∧
    Forall2 (link_record (operators_of workflow)) (links_of workflow) plan_links.
Proof.
  apply (link_records_carry_port_ordinals (rt := interpreter) (dumps workflow) workflow);
    vm_compute; reflexivity.
Defined.

Lemma dangling_link_raises_witness :
  (∃ e, convertWorkflowContentToLogicalPlan (rt := interpreter) (dumps dangling_workflow)
        = Raise e) ∧
  (user_workflow_document dangling_workflow = true →
   convertWorkflowContentToLogicalPlan (rt := interpreter) (dumps dangling_workflow)
   = Raise StopIteration).
Proof.
  apply (dangling_link_raises (rt := interpreter) (dumps dangling_workflow)
           dangling_workflow dangling_link).
  - vm_compute; reflexivity.
  - apply list_elem_of_In. vm_compute. auto.
  - vm_compute; reflexivity.
Defined.

Lemma id_lists_are_intersections_witness :
  ∃ out,
    getitem (JObj [("operators",
                    JArr [JObj [("limit", JInt 10); ("operatorID", JStr "A");
                                ("operatorType", JStr "Scan"); ("inputPorts", JArr []);
                                ("outputPorts", JArr [port "out0"; port "out1"])];
                          JObj [("operatorID", JStr "B"); ("operatorType", JStr "Sink");
                                ("inputPorts", JArr [port "in0"; port "in1"]);
                                ("outputPorts", JArr [])]]);
                   ("links",
                    JArr [JObj [("fromOpId", JStr "A");
                                ("fromPortId", JObj [("id", JInt 1); ("internal", JBool false)]);
                                ("toOpId", JStr "B");
                                ("toPortId", JObj [("id", JInt 1); ("internal", JBool false)])]]);
                   ("opsToReuseResult", JArr []);
                   ("opsToViewResult", JArr [JStr "B"])])
            "opsToViewResult" = Ok (JArr out) ∧
    is_intersection (operators_of workflow) (listed_ids workflow "opsToViewResult") out ∧
    (has_field "opsToViewResult" workflow = false → out = []).
Proof.
  apply (id_lists_are_intersections (rt := interpreter) (dumps workflow) workflow).
  - vm_compute; reflexivity.
  - vm_compute; reflexivity.
  - left; reflexivity.
Defined.

(** *** Flattening *)

(** C7 (as the code has it). For every operator whose [operatorProperties]
    holds a key that is also one of the four structural fields
    ([operatorID], [operatorType], [inputPorts], [outputPorts]), the
    flattened record keeps under that key the value of the structural field
    of the operator: the properties are merged first and the structural
    fields are stored after them, over the property of the same name. *)
Theorem colliding_key_keeps_structural_value operator fields record k v :
  getitem operator "operatorProperties" = Ok (JObj fields) →
  dict_lookup k fields = Some v →
  k ∈ structural_fields →
  new_operator operator = Ok record →
  ∃ s, getitem operator k = Ok s ∧ getitem record k = Ok s.
Proof.
  intros _ _ Hk Hnew.
  rewrite (new_operator_structural _ _ _ Hnew Hk).
  assert (Hok : is_ok (getitem operator k) = true).
  { unfold new_operator in Hnew. ok_inv Hnew.
    destruct a; try discriminate. ok_inv Hnew.
    unfold structural_fields in Hk.
    repeat (apply elem_of_cons in Hk as [->|Hk]); [..|by apply elem_of_nil in Hk];
      match goal with Hg : ?g = Ok _ |- is_ok ?g = true => now rewrite Hg end. }
  destruct (getitem operator k) as [s|]; [eauto|discriminate].
Qed.

Lemma colliding_key_keeps_structural_value_witness :
  ∃ s, getitem colliding_operator "operatorID" = Ok s ∧
       getitem (JObj [("operatorID", JStr "A"); ("limit", JInt 10);
                      ("operatorType", JStr "Scan"); ("inputPorts", JArr []);
                      ("outputPorts", JArr [])]) "operatorID" = Ok s.
Proof.
  apply (colliding_key_keeps_structural_value colliding_operator
           [("operatorID", JStr "shadow"); ("limit", JInt 10)] _ "operatorID"
           (JStr "shadow")).
  - reflexivity.
  - reflexivity.
  - unfold structural_fields. apply elem_of_cons. left. reflexivity.
  - reflexivity.
Defined.

(** C7, as stated, fails: the operator [A] whose properties hold
    [operatorID = "shadow"] is flattened to a record whose [operatorID] is
    ["A"], not the value of the property. *)
Lemma colliding_property_is_overridden :
  getitem colliding_operator "operatorProperties"
    = Ok (JObj [("operatorID", JStr "shadow"); ("limit", JInt 10)]) ∧
  ∃ record, new_operator colliding_operator = Ok record ∧
            getitem record "operatorID" = Ok (JStr "A") ∧
            getitem record "operatorID" ≠ Ok (JStr "shadow").
Proof.
  split; [reflexivity|]. eexists. split; [reflexivity|]. split; [reflexivity|].
  discriminate.
Qed.

(** C8 (as the code has it). The flattening step reads
    [operatorProperties] without a default.  Applied to an already-flat
    operator record, one that holds the four structural fields and no
    [operatorProperties], it raises [KeyError]; applied to the same record
    with an empty [operatorProperties] added, it yields the same four
    structural fields and no other field. *)
Theorem flattening_requires_properties fields id ty ins outs :
  dict_lookup "operatorProperties" fields = None →
  dict_lookup "operatorID" fields = Some id →
  dict_lookup "operatorType" fields = Some ty →
  dict_lookup "inputPorts" fields = Some ins →
  dict_lookup "outputPorts" fields = Some outs →
  new_operator (JObj fields) = Raise (KeyError "operatorProperties") ∧
  new_operator (JObj (("operatorProperties", JObj []) :: fields)) =
    Ok (JObj [("operatorID", id); ("operatorType", ty);
              ("inputPorts", ins); ("outputPorts", outs)]).
Proof.
  intros Hprops Hid Hty Hins Houts. unfold new_operator. simpl.
  rewrite Hprops, Hid, Hty, Hins, Houts. split; reflexivity.
Qed.

Lemma flattening_requires_properties_witness :
  new_operator flat_operator = Raise (KeyError "operatorProperties") ∧
  new_operator bare_operator =
    Ok (JObj [("operatorID", JStr "A"); ("operatorType", JStr "Scan");
              ("inputPorts", JArr []); ("outputPorts", JArr [])]).
Proof.
  apply (flattening_requires_properties
           [("operatorID", JStr "A"); ("operatorType", JStr "Scan");
            ("inputPorts", JArr []); ("outputPorts", JArr [])]);
    reflexivity.
Defined.

(** C8, as stated, fails: flattening the already-flat operator [A], which
    has no [operatorProperties], returns no record. *)
Lemma flat_operator_is_rejected :
  has_field "operatorProperties" flat_operator = false ∧
  new_operator flat_operator = Raise (KeyError "operatorProperties") ∧
  ¬ ∃ record, new_operator flat_operator = Ok record.
Proof.
  split; [reflexivity|]. split; [reflexivity|]. intros [record Hrecord]. discriminate.
Qed.

(** ** Properties of the client *)

(** *** The text of an export file *)

Lemma has_newline_app s t : has_newline (s +:+ t) = has_newline s || has_newline t.
Proof.
  induction s as [|c s IH]; [reflexivity|].
  change (String c s +:+ t)%string with (String c (s +:+ t)). simpl.
  now rewrite IH, orb_assoc.
Qed.

Lemma lines_app s rest :
  has_newline s = false → lines (s +:+ String newline rest) = s :: lines rest.
Proof.
  induction s as [|c s IH]; [reflexivity|].
  change (String c s +:+ String newline rest)%string
    with (String c (s +:+ String newline rest)).
  simpl. intros [Hc Hs]%orb_false_elim. rewrite Hc, (IH Hs). reflexivity.
Qed.

Lemma str_uint_no_newline u : has_newline (NilEmpty.string_of_uint u) = false.
Proof. induction u; simpl; auto. Qed.

Lemma str_int_no_newline n : has_newline (str_int n) = false.
Proof.
  unfold str_int, NilZero.string_of_int.
  destruct (Z.to_int n) as [u|u]; simpl;
    (destruct u; [reflexivity|exact (str_uint_no_newline _)..]).
Qed.

Lemma escape_char_no_newline c : has_newline (escape_char c) = false.
Proof. destruct c as [[] [] [] [] [] [] [] []]; reflexivity. Qed.

Lemma escape_no_newline s : has_newline (escape s) = false.
Proof.
  induction s as [|c s IH]; [reflexivity|]. simpl.
  now rewrite has_newline_app, escape_char_no_newline, IH.
Qed.

Lemma dumps_str_no_newline s : has_newline (dumps_str s) = false.
Proof.
  unfold dumps_str. simpl. now rewrite has_newline_app, escape_no_newline.
Qed.

Lemma join_comma_no_newline parts :
  Forall (λ p, has_newline p = false) parts → has_newline (join_comma parts) = false.
Proof.
  induction 1 as [|p rest Hp Hrest IH]; [reflexivity|].
  destruct rest as [|q rest]; [exact Hp|].
  change (join_comma (p :: q :: rest)) with (p +:+ ", " +:+ join_comma (q :: rest))%string.
  now rewrite !has_newline_app, Hp, IH.
Qed.

(** [json.dumps] writes no newline: the newlines of the strings are
    escaped and the separators hold none. *)
Lemma dumps_no_newline v : has_newline (dumps v) = false.
Proof.
  induction v as [|[]|n|s|items IH|fields IH] using json_ind; try reflexivity.
  - apply str_int_no_newline.
  - apply dumps_str_no_newline.
  - simpl. rewrite !has_newline_app. simpl. rewrite orb_false_r.
    apply join_comma_no_newline. induction IH; simpl; constructor; auto.
  - simpl. rewrite !has_newline_app. simpl. rewrite orb_false_r.
    apply join_comma_no_newline. induction IH as [|[k x] rest Hx _ IH']; constructor; auto.
    simpl in Hx. now rewrite !has_newline_app, dumps_str_no_newline, Hx.
Qed.

(** An export file has one line per row, the encoding of the row. *)
Lemma lines_jsonl rows : lines (jsonl rows) = map dumps rows.
Proof.
  induction rows as [|row rest IH]; [reflexivity|]. simpl.
  now rewrite lines_app, IH by apply dumps_no_newline.
Qed.

(** *** What an action leaves unchanged *)

Section Preservation.
Context {rt : Runtime} {os : FileSystem}.
Variable R : world → world → Prop.
Hypothesis R_refl : ∀ w, R w w.
Hypothesis R_trans : ∀ w1 w2 w3, R w1 w2 → R w2 w3 → R w1 w3.

Lemma preserves_ret {A} (a : A) : preserves R (ret a).
Proof. intros w. apply R_refl. Qed.

Lemma preserves_raise {A} e : preserves R (raise (A := A) e).
Proof. intros w. apply R_refl. Qed.

Lemma preserves_lift {A} (r : result A) : preserves R (lift r).
Proof. intros w. apply R_refl. Qed.

Lemma preserves_from_disk {A} (read : fs → result A) : preserves R (from_disk read).
Proof. intros w. apply R_refl. Qed.

Lemma preserves_get_export_requests : preserves R get_export_requests.
Proof. intros w. apply R_refl. Qed.

Lemma preserves_bind {A B} (m : action A) (k : A → action B) :
  preserves R m → (∀ a, preserves R (k a)) → preserves R (bind m k).
Proof.
  intros Hm Hk w. unfold bind. specialize (Hm w).
  destruct (m w) as [w1 [a|e]]; simpl in *; [|exact Hm].
  eapply R_trans; [exact Hm|apply Hk].
Qed.

Lemma preserves_try_except {A} (body : action A) handler :
  preserves R body → (∀ e, preserves R (handler e)) → preserves R (try_except body handler).
Proof.
  intros Hm Hk w. unfold try_except. specialize (Hm w).
  destruct (body w) as [w1 [a|e]]; simpl in *; [exact Hm|].
  eapply R_trans; [exact Hm|apply Hk].
Qed.

Lemma preserves_for_each_do {A} (body : A → action unit) items :
  (∀ x, preserves R (body x)) → preserves R (for_each_do body items).
Proof.
  intros Hbody. induction items as [|x rest IH]; simpl.
  - apply preserves_ret.
  - apply preserves_bind; auto.
Qed.

End Preservation.

Section ClientFacts.
Context {rt : Runtime} {os : FileSystem}.

Lemma same_requests_and_disk_refl w : same_requests_and_disk w w.
Proof. now split. Qed.

Lemma same_requests_and_disk_trans w1 w2 w3 :
  same_requests_and_disk w1 w2 → same_requests_and_disk w2 w3 →
  same_requests_and_disk w1 w3.
Proof. intros [? ?] [? ?]. split; congruence. Qed.

Lemma logger_same lvl template args : preserves same_requests_and_disk (logger lvl template args).
Proof. intros w. now split. Qed.

Lemma ws_send_same payload : preserves same_requests_and_disk (ws_send payload).
Proof. intros w. now split. Qed.

End ClientFacts.

(** Goes through an action made of steps that keep the requests and the
    disk. *)
Ltac frame :=
  repeat first
    [ apply logger_same
    | apply ws_send_same
    | apply preserves_ret, same_requests_and_disk_refl
    | apply preserves_raise, same_requests_and_disk_refl
    | apply preserves_lift, same_requests_and_disk_refl
    | apply preserves_from_disk, same_requests_and_disk_refl
    | apply preserves_get_export_requests, same_requests_and_disk_refl
    | apply preserves_bind; [apply same_requests_and_disk_trans| |intros ?]
    | apply preserves_try_except; [apply same_requests_and_disk_trans| |intros ?]
    | apply preserves_for_each_do;
        [apply same_requests_and_disk_refl|apply same_requests_and_disk_trans|intros ?]
    | match goal with
      | |- preserves _ (if ?b then _ else _) => destruct b
      | |- preserves _ (match ?x with _ => _ end) => destruct x
      end ].

Section HandlerFrames.
Context {rt : Runtime} {os : FileSystem}.

Lemma handle_kill_same : preserves same_requests_and_disk handle_kill.
Proof. unfold handle_kill. frame. Qed.

Lemma handle_exec_same ns : preserves same_requests_and_disk (handle_exec ns).
Proof. unfold handle_exec. frame. Qed.

Lemma on_duration_update_same event :
  preserves same_requests_and_disk (on_duration_update event).
Proof. unfold on_duration_update. frame. Qed.

Lemma on_workflow_state_same event :
  preserves same_requests_and_disk (on_workflow_state event).
Proof. unfold on_workflow_state. frame. Qed.

Lemma on_result_update_same event :
  preserves same_requests_and_disk (on_result_update event).
Proof. unfold on_result_update. frame. Qed.

End HandlerFrames.

(** *** The receiver and the export requests *)

Section ReceiverFacts.
Context {rt : Runtime} {os : FileSystem}.

Lemma same_but_log_refl w : same_but_log w w.
Proof. now repeat split. Qed.

Lemma same_but_log_weaken w w' : same_but_log w w' → same_requests_and_disk w w'.
Proof. intros (? & ? & ?). now split. Qed.

Lemma log_rows template rows w :
  ∃ w1, for_each_do (λ row, logger INFO template [AJson row]) rows w = (w1, Ok tt) ∧
        same_but_log w w1.
Proof.
  revert w. induction rows as [|row rest IH]; intros w; simpl.
  - exists w. split; [reflexivity|apply same_but_log_refl].
  - unfold bind at 1. simpl.
    destruct (IH (World (export_requests w) (disk w) (sent w)
                    (logged w ++ [LogRecord INFO template [AJson row]])))
      as (w1 & -> & Hsame).
    exists w1. split; [reflexivity|]. destruct Hsame as (? & ? & ?). now repeat split.
Qed.

(** A complete [PaginatedResultEvent] is logged, then its rows go to
    [export_rows]. *)
Lemma on_paginated_result_export event o n rows w :
  paginated_result event o n rows →
  ∃ w1, same_but_log w w1 ∧
        on_paginated_result event w = export_rows (JStr o) (JInt n) rows w1.
Proof.
  intros (_ & Hop & Hpg & Hrows & Hschema).
  unfold on_paginated_result, bind, lift. rewrite Hop, Hpg, Hrows. simpl.
  unfold has_field in Hschema.
  destruct (getitem event "schema") as [schema|]; [|discriminate]. simpl.
  match goal with |- context [for_each_do ?body rows ?w0] =>
    destruct (log_rows "Row: {}" rows w0) as (w1 & -> & Hsame) end.
  exists w1. split; [|reflexivity].
  destruct Hsame as (? & ? & ?). now repeat split.
Qed.

(** Whatever the event holds, the branch either raises before the export,
    the requests and the disk being as they were, or reaches [export_rows]
    with the operator and the page of the event. *)
Lemma on_paginated_result_run event w :
  ((∃ e, (on_paginated_result event w).2 = Raise e) ∧
   same_requests_and_disk w (on_paginated_result event w).1) ∨
  ∃ op pg each w1,
    getitem event "operatorID" = Ok op ∧ getitem event "pageIndex" = Ok pg ∧
    same_but_log w w1 ∧
    on_paginated_result event w = export_rows op pg each w1.
Proof.
  unfold on_paginated_result, bind, lift.
  destruct (getitem event "operatorID") as [op|]; [|left; split; [eauto|now split]].
  destruct (getitem event "pageIndex") as [pg|]; [|left; split; [eauto|now split]].
  destruct (get event "table" (JArr [])) as [rows|]; [|left; split; [eauto|now split]].
  destruct (py_len rows) as [n|]; [|left; split; [eauto|now split]]. simpl.
  destruct (getitem event "schema") as [schema|]; [|left; split; [eauto|now split]]. simpl.
  destruct (py_iter rows) as [each|]; [|left; split; [eauto|now split]].
  match goal with |- context [for_each_do ?body each ?w0] =>
    destruct (log_rows "Row: {}" each w0) as (w1 & -> & Hsame) end.
  right. exists op, pg, each, w1. repeat split; try reflexivity;
    destruct Hsame as (? & ? & ?); assumption.
Qed.

Lemma lookup_export_some t op pg key text entry :
  lookup_export t op pg = Some (key, text, entry) →
  op = JStr key.1 ∧ page_key pg = Some (key.2, text) ∧ t !! key = Some entry.
Proof.
  unfold lookup_export. destruct op as [| | |o| |]; try discriminate.
  destruct (page_key pg) as [[n text']|]; [|discriminate].
  destruct (t !! (o, n)) as [entry'|] eqn:Hentry; [|discriminate].
  intros [= <- <- <-]. auto.
Qed.

(** When the request of the event is not in the table, [export_rows]
    changes nothing. *)
Lemma export_rows_missing op pg rows w :
  lookup_export (export_requests w) op pg = None →
  (export_rows op pg rows w).1 = w.
Proof.
  intros Hnone. unfold export_rows.
  destruct (negb (hashable op && hashable pg)); [reflexivity|].
  unfold bind, get_export_requests. now rewrite Hnone.
Qed.

(** When it is, and the directory and the file can be written, the request
    is removed and the rows are written under the name of the request. *)
Lemma export_rows_found o n rows dir size d1 d2 w :
  export_requests w !! (o, n) = Some (dir, size) →
  mkdir_parents dir (disk w) = (d1, None) →
  write_text (joinpath dir (export_name o size n)) (jsonl rows) d1 = (d2, None) →
  ∃ w', export_rows (JStr o) (JInt n) rows w = (w', Ok tt) ∧
        export_requests w' = delete (o, n) (export_requests w) ∧
        disk w' = d2 ∧ sent w' = sent w.
Proof.
  intros Hentry Hmkdir Hwrite.
  unfold export_rows, bind, get_export_requests, lookup_export. simpl.
  rewrite Hentry. unfold set_export_requests, on_disk. simpl. rewrite Hmkdir. simpl.
  fold (jsonl rows). fold (export_name o size n). rewrite Hwrite. simpl.
  eexists. split; [reflexivity|]. auto.
Qed.

Lemma dispatch_event raw event w :
  json_loads raw = Ok event →
  get event "type" JNull = Ok (JStr "PaginatedResultEvent") →
  dispatch raw w = on_paginated_result event w.
Proof.
  intros Hloads Htype. unfold dispatch, bind, lift. now rewrite Hloads, Htype.
Qed.

(** A frame leaves the requests and the disk as they are unless it answers
    a request of the table. *)
Lemma dispatch_frame raw w :
  same_requests_and_disk w (dispatch raw w).1 ∨
  ∃ event key entry,
    json_loads raw = Ok event ∧ answers key event ∧
    export_requests w !! key = Some entry.
Proof.
  unfold dispatch. unfold bind at 1. unfold lift at 1.
  destruct (json_loads raw) as [event|] eqn:Hloads; [|left; now split].
  unfold bind at 1. unfold lift at 1.
  destruct (get event "type" JNull) as [evt|] eqn:Htype; [|left; now split].
  destruct (py_eq evt (JStr "ExecutionDurationUpdateEvent"));
    [left; apply on_duration_update_same|].
  destruct (py_eq evt (JStr "WorkflowStateEvent")); [left; apply on_workflow_state_same|].
  destruct (py_eq evt (JStr "WebResultUpdateEvent")); [left; apply on_result_update_same|].
  destruct (py_eq evt (JStr "PaginatedResultEvent")) eqn:Hevt; [|left; now split].
  destruct (on_paginated_result_run event w)
    as [[_ Hsame]|(op & pg & each & w1 & Hop & Hpg & Hlog & ->)]; [now left|].
  destruct (lookup_export (export_requests w1) op pg) as [[[key text] entry]|] eqn:Hfound.
  - right. apply lookup_export_some in Hfound as (-> & Hkey & Hentry).
    destruct Hlog as (Hreq & _). rewrite Hreq in Hentry.
    exists event, key, entry. split; [reflexivity|]. split; [|exact Hentry].
    exists evt, pg, text. auto.
  - left. rewrite (export_rows_missing _ _ _ _ Hfound).
    now apply same_but_log_weaken.
Qed.

(** Once [export_rows] has run for the request [(o, n)], whatever its
    outcome, the request is not in the table. *)
Lemma export_rows_consumes o n pg text rows w :
  page_key pg = Some (n, text) →
  export_requests (export_rows (JStr o) pg rows w).1 !! (o, n) = None.
Proof.
  intros Hpg.
  assert (Hhash : hashable pg = true) by (destruct pg; try discriminate; reflexivity).
  unfold export_rows, bind, get_export_requests, set_export_requests, on_disk, logger,
    lookup_export.
  rewrite Hhash, Hpg. simpl.
  destruct (export_requests w !! (o, n)) as [[out_dir req_size]|] eqn:Hentry;
    [|exact Hentry].
  simpl. destruct (mkdir_parents out_dir (disk w)) as [d1 [e|]]; simpl;
    [apply lookup_delete_eq|].
  destruct (write_text _ _ d1) as [d2 [e|]]; simpl; apply lookup_delete_eq.
Qed.

(** [export_rows] takes at most its own request out of the table. *)
Lemma export_rows_requests op pg rows w :
  export_requests (export_rows op pg rows w).1 = export_requests w ∨
  ∃ key text entry,
    lookup_export (export_requests w) op pg = Some (key, text, entry) ∧
    export_requests (export_rows op pg rows w).1 = delete key (export_requests w).
Proof.
  unfold export_rows, bind, get_export_requests, set_export_requests, on_disk, logger.
  destruct (negb (hashable op && hashable pg)); [now left|].
  destruct (lookup_export (export_requests w) op pg) as [[[key text] [out_dir req_size]]|];
    [|now left].
  right. exists key, text, (out_dir, req_size). split; [reflexivity|].
  simpl. destruct (mkdir_parents out_dir (disk w)) as [d1 [e|]]; simpl; [reflexivity|].
  destruct (write_text _ _ d1) as [d2 [e|]]; reflexivity.
Qed.

Lemma answers_py_eq evt :
  py_eq evt (JStr "PaginatedResultEvent") = true → evt = JStr "PaginatedResultEvent".
Proof.
  destruct evt; simpl; try discriminate. now intros ->%String.eqb_eq.
Qed.

Lemma answers_unique key key' event : answers key event → answers key' event → key = key'.
Proof.
  intros (evt & pg & text & _ & _ & Hop & Hpg & Hkey)
         (evt' & pg' & text' & _ & _ & Hop' & Hpg' & Hkey').
  destruct key, key'. simpl in *. congruence.
Qed.

(** A frame takes at most the request that it answers out of the table. *)
Lemma dispatch_requests raw w :
  export_requests (dispatch raw w).1 = export_requests w ∨
  ∃ event key,
    json_loads raw = Ok event ∧ answers key event ∧
    export_requests (dispatch raw w).1 = delete key (export_requests w).
Proof.
  destruct (dispatch_frame raw w) as [[Hreq _]|(event & key & entry & Hloads & Hans & Hentry)];
    [now left|].
  destruct Hans as (evt & pg & text & Htype & Hevt & Hop & Hpg & Hkey).
  apply answers_py_eq in Hevt as ->.
  rewrite (dispatch_event raw event w Hloads Htype).
  destruct (on_paginated_result_run event w)
    as [[_ [Hreq _]]|(op & pg' & each & w1 & Hop' & Hpg' & Hlog & ->)]; [now left|].
  destruct Hlog as (Hreq & _).
  destruct (export_rows_requests op pg' each w1)
    as [->|(key' & text' & entry' & Hfound & ->)]; [now left|].
  right. exists event, key'. split; [exact Hloads|]. split; [|now rewrite Hreq].
  apply lookup_export_some in Hfound as (-> & Hkey' & _).
  exists (JStr "PaginatedResultEvent"), pg', text'. auto.
Qed.

(** After a frame that answers [key] has been handled without exception,
    [key] is not in the table. *)
Lemma dispatch_consumes raw event key w w1 :
  json_loads raw = Ok event → answers key event →
  dispatch raw w = (w1, Ok tt) →
  export_requests w1 !! key = None.
Proof.
  intros Hloads (evt & pg & text & Htype & Hevt & Hop & Hpg & Hkey) Hrun.
  apply answers_py_eq in Hevt as ->.
  rewrite (dispatch_event raw event w Hloads Htype) in Hrun.
  destruct (on_paginated_result_run event w)
    as [[[e He] _]|(op & pg' & each & w' & Hop' & Hpg' & _ & Hexport)].
  - rewrite Hrun in He. discriminate.
  - rewrite Hexport in Hrun. destruct key as [o n]. simpl in *.
    assert (op = JStr o) as -> by congruence. assert (pg' = pg) as -> by congruence.
    pose proof (export_rows_consumes o n pg text each w' Hkey) as Hnone.
    now rewrite Hrun in Hnone.
Qed.

End ReceiverFacts.

(** *** Schedules *)

Section ScheduleFacts.
Context {rt : Runtime} {os : FileSystem}.

Lemma handle_page_run ns w :
  ∃ w', handle_page ns w = (w', Ok tt) ∧ disk w' = disk w ∧
        export_requests w' =
          match export ns with
          | Some dir => <[(operator ns, page ns) := (dir, size ns)]> (export_requests w)
          | None => export_requests w
          end.
Proof.
  unfold handle_page, bind, get_export_requests, set_export_requests, logger, ws_send, ret.
  destruct (export ns); simpl; eauto.
Qed.

Lemma session_cons a schedule w :
  session (a :: schedule) w =
    match perform a w with
    | (w', Ok _) => session schedule w'
    | (w', Raise e) => (w', Raise e)
    end.
Proof. reflexivity. Qed.

Lemma session_app schedule1 schedule2 w w2 :
  session (schedule1 ++ schedule2) w = (w2, Ok tt) →
  ∃ w1, session schedule1 w = (w1, Ok tt) ∧ session schedule2 w1 = (w2, Ok tt).
Proof.
  revert w. induction schedule1 as [|a rest IH]; intros w; simpl app.
  - intros Hrun. exists w. auto.
  - rewrite !session_cons. destruct (perform a w) as [w' [[]|e]]; [apply IH|discriminate].
Qed.

(** An activity that does not store [key] leaves [key] out of a table
    that does not hold it. *)
Lemma perform_registers_not key a w :
  registers_not key a →
  export_requests w !! key = None →
  export_requests (perform a w).1 !! key = None.
Proof.
  intros Hnot Hnone.
  destruct a as [[|ns|ns|]|raw]; cbn [perform sender_step registers_not] in *.
  - now rewrite (proj1 (handle_kill_same w)).
  - destruct (handle_page_run ns w) as (w' & -> & _ & Hreq). cbn [fst]. rewrite Hreq.
    destruct (export ns) as [dir|]; [|exact Hnone].
    destruct Hnot as [[=]|Hkey]. now rewrite lookup_insert_ne.
  - now rewrite (proj1 (handle_exec_same ns w)).
  - exact Hnone.
  - destruct (dispatch_requests raw w) as [->|(event & key' & _ & _ & ->)]; [exact Hnone|].
    apply lookup_delete_None. auto.
Qed.

Lemma session_registers_not key schedule w :
  Forall (registers_not key) schedule →
  export_requests w !! key = None →
  export_requests (session schedule w).1 !! key = None.
Proof.
  intros Hall. revert w. induction Hall as [|a rest Ha _ IH]; intros w Hnone; [exact Hnone|].
  rewrite session_cons.
  pose proof (perform_registers_not key a w Ha Hnone) as Hstep.
  destruct (perform a w) as [w' [[]|e]]; simpl in *; auto.
Qed.

(** An activity that neither stores nor consumes [key] leaves the table
    as it is at [key]. *)
Lemma perform_leaves_request key a w :
  leaves_request key a →
  export_requests (perform a w).1 !! key = export_requests w !! key.
Proof.
  intros Hleaves.
  destruct a as [[|ns|ns|]|raw]; cbn [perform sender_step registers_not leaves_request] in *.
  - now rewrite (proj1 (handle_kill_same w)).
  - destruct (handle_page_run ns w) as (w' & -> & _ & Hreq). cbn [fst]. rewrite Hreq.
    destruct (export ns) as [dir|]; [|reflexivity].
    destruct Hleaves as [[=]|Hkey]. now rewrite lookup_insert_ne.
  - now rewrite (proj1 (handle_exec_same ns w)).
  - reflexivity.
  - destruct (dispatch_requests raw w) as [->|(event & key' & Hloads & Hans & ->)];
      [reflexivity|].
    apply lookup_delete_ne. intros <-. exact (Hleaves event Hloads Hans).
Qed.

Lemma session_leaves_request key schedule w :
  Forall (leaves_request key) schedule →
  export_requests (session schedule w).1 !! key = export_requests w !! key.
Proof.
  intros Hall. revert w. induction Hall as [|a rest Ha _ IH]; intros w; [reflexivity|].
  rewrite session_cons.
  pose proof (perform_leaves_request key a w Ha) as Hstep.
  destruct (perform a w) as [w' [[]|e]]; simpl in *; [|exact Hstep].
  now rewrite IH.
Qed.

(** The export of a page: when the table holds a request for the operator
    and the page of a complete event, and the directory and the file can be
    written, the frame is handled without exception, the rows are written to
    the file of the request and the request leaves the table. *)
Lemma export_completion raw event o n rows dir size d1 d2 w :
  json_loads raw = Ok event →
  paginated_result event o n rows →
  export_requests w !! (o, n) = Some (dir, size) →
  mkdir_parents dir (disk w) = (d1, None) →
  write_text (joinpath dir (export_name o size n)) (jsonl rows) d1 = (d2, None) →
  ∃ w', dispatch raw w = (w', Ok tt) ∧ disk w' = d2 ∧ sent w' = sent w ∧
        export_requests w' = delete (o, n) (export_requests w).
Proof.
  intros Hloads Hevent Hentry Hmkdir Hwrite.
  rewrite (dispatch_event raw event w Hloads (proj1 Hevent)).
  destruct (on_paginated_result_export event o n rows w Hevent) as (w1 & Hlog & ->).
  destruct Hlog as (Hreq & Hdisk & Hsent).
  rewrite <- Hreq in Hentry. rewrite <- Hdisk in Hmkdir.
  destruct (export_rows_found o n rows dir size d1 d2 w1 Hentry Hmkdir Hwrite)
    as (w' & -> & Hreq' & Hdisk' & Hsent').
  exists w'. split; [reflexivity|]. repeat split; congruence.
Qed.

End ScheduleFacts.

(** *** The claims on the client *)

Section ClientClaims.
Context {rt : Runtime} {os : FileSystem}.

(** C2. A paginate command with an export directory is issued for the
    operator [opA], the page 3 and the size 50; the session goes on with
    activities that neither store nor consume the request [(opA, 3)].  When
    the first [PaginatedResultEvent] for [opA] and the page 3 then arrives
    with 50 rows, and the directory and the file can be written, the frame is
    handled without exception, the file [opA_50_3.jsonl] of that directory
    receives a text of exactly 50 lines, the JSON encodings of the rows in
    their order, and the table no longer holds the key [(opA, 3)]. *)
Theorem requested_page_is_exported w dir mid w2 raw event rows d1 d2 :
  session (Command (NsPage (PageArgs "opA" 50 3 (Some dir))) :: mid) w = (w2, Ok tt) →
  Forall (leaves_request ("opA", 3%Z)) mid →
  json_loads raw = Ok event →
  paginated_result event "opA" 3 rows →
  length rows = 50%nat →
  mkdir_parents dir (disk w2) = (d1, None) →
  write_text (joinpath dir "opA_50_3.jsonl") (jsonl rows) d1 = (d2, None) →
  ∃ w3, dispatch raw w2 = (w3, Ok tt) ∧ disk w3 = d2 ∧
        lines (jsonl rows) = map dumps rows ∧
        length (lines (jsonl rows)) = 50%nat ∧
        export_requests w3 !! ("opA", 3%Z) = None.
Proof.
  intros Hrun Hmid Hloads Hevent Hrows Hmkdir Hwrite.
  rewrite session_cons in Hrun. cbn [perform sender_step] in Hrun.
  destruct (handle_page_run (PageArgs "opA" 50 3 (Some dir)) w) as (w1 & Hpage & _ & Hreq).
  rewrite Hpage in Hrun. cbn [export operator page size] in Hreq.
  assert (Hentry : export_requests w2 !! ("opA", 3%Z) = Some (dir, 50%Z)).
  { pose proof (session_leaves_request ("opA", 3%Z) mid w1 Hmid) as Hkeep.
    rewrite Hrun in Hkeep. simpl in Hkeep. rewrite Hkeep, Hreq.
    apply lookup_insert_eq. }
  destruct (export_completion raw event "opA" 3 rows dir 50 d1 d2 w2
              Hloads Hevent Hentry Hmkdir Hwrite) as (w3 & Hdispatch & Hdisk & _ & Htable).
  exists w3. split; [exact Hdispatch|]. split; [exact Hdisk|].
  split; [apply lines_jsonl|]. split.
  - now rewrite lines_jsonl, length_map.
  - rewrite Htable. apply lookup_delete_eq.
Qed.

(** C4. Once a [PaginatedResultEvent] that answers the request [key] has
    been handled and has consumed the entry of [key], and as long as no
    paginate command stores [key] again, a second [PaginatedResultEvent] with
    the same [operatorID] and [pageIndex] writes no file and leaves the table
    as it is: the disk and the table after the frame are those before it. *)
Theorem second_result_is_ignored w key entry raw1 event1 w1 mid w2 raw2 event2 :
  export_requests w !! key = Some entry →
  json_loads raw1 = Ok event1 → answers key event1 →
  dispatch raw1 w = (w1, Ok tt) →
  session mid w1 = (w2, Ok tt) → Forall (registers_not key) mid →
  json_loads raw2 = Ok event2 → answers key event2 →
  disk (dispatch raw2 w2).1 = disk w2 ∧
  export_requests (dispatch raw2 w2).1 = export_requests w2.
Proof.
  intros _ Hloads1 Hans1 Hrun1 Hmid Hnot Hloads2 Hans2.
  pose proof (dispatch_consumes raw1 event1 key w w1 Hloads1 Hans1 Hrun1) as Hnone.
  apply (session_registers_not key mid w1 Hnot) in Hnone. rewrite Hmid in Hnone.
  simpl in Hnone.
  destruct (dispatch_frame raw2 w2) as [[Hreq Hdisk]|(event & key' & entry' & Hloads & Hans & Hentry)];
    [now split|].
  assert (event = event2) as -> by congruence.
  rewrite (answers_unique _ _ _ Hans Hans2) in Hentry. congruence.
Qed.

(** C10. A second paginate command with an export directive for the key
    of an earlier one replaces the entry of that key: after it, and after
    any activities that neither store nor consume the key, the table maps the
    key to the directory and the size of the second command, and a
    [PaginatedResultEvent] for the key is exported to the directory of the
    second command under the name made with its size. *)
Theorem latest_request_wins w op pg dir1 size1 dir2 size2 between mid w2 :
  session (Command (NsPage (PageArgs op size1 pg (Some dir1))) :: between ++
           Command (NsPage (PageArgs op size2 pg (Some dir2))) :: mid) w = (w2, Ok tt) →
  Forall (leaves_request (op, pg)) mid →
  export_requests w2 !! (op, pg) = Some (dir2, size2) ∧
  ∀ raw event rows d1 d2,
    json_loads raw = Ok event →
    paginated_result event op pg rows →
    mkdir_parents dir2 (disk w2) = (d1, None) →
    write_text (joinpath dir2 (export_name op size2 pg)) (jsonl rows) d1 = (d2, None) →
    ∃ w3, dispatch raw w2 = (w3, Ok tt) ∧ disk w3 = d2 ∧
          export_requests w3 !! (op, pg) = None.
Proof.
  intros Hrun Hmid.
  change (?a :: between ++ ?b :: mid) with ((a :: between) ++ b :: mid) in Hrun.
  apply session_app in Hrun as (w0 & _ & Hrun).
  rewrite session_cons in Hrun. cbn [perform sender_step] in Hrun.
  destruct (handle_page_run (PageArgs op size2 pg (Some dir2)) w0) as (w1 & Hpage & _ & Hreq).
  rewrite Hpage in Hrun. cbn [export operator page size] in Hreq.
  assert (Hentry : export_requests w2 !! (op, pg) = Some (dir2, size2)).
  { pose proof (session_leaves_request (op, pg) mid w1 Hmid) as Hkeep.
    rewrite Hrun in Hkeep. simpl in Hkeep. rewrite Hkeep, Hreq.
    apply lookup_insert_eq. }
  split; [exact Hentry|].
  intros raw event rows d1 d2 Hloads Hevent Hmkdir Hwrite.
  destruct (export_completion raw event op pg rows dir2 size2 d1 d2 w2
              Hloads Hevent Hentry Hmkdir Hwrite) as (w3 & Hdispatch & Hdisk & _ & Htable).
  exists w3. split; [exact Hdispatch|]. split; [exact Hdisk|].
  rewrite Htable. apply lookup_delete_eq.
Qed.

(** C5. When the plan file of an execute command is missing, cannot be
    read, or holds a text that is not decoded or not converted, the handler
    hands nothing to the connection: it returns without exception, what was
    sent is what had been sent before, and the session goes on with the next
    activities. *)
Theorem unusable_plan_sends_nothing w ns rest :
  plan_unusable w ns →
  ∃ w', handle_exec ns w = (w', Ok tt) ∧ sent w' = sent w ∧
        session (Command (NsExec ns) :: rest) w = session rest w'.
Proof.
  intros Hbad.
  assert (Hexec : ∃ w', handle_exec ns w = (w', Ok tt) ∧ sent w' = sent w).
  { unfold handle_exec, bind, from_disk, try_except, lift, logger, ret.
    destruct Hbad as [Hmissing|[[e Hread]|(raw & e & Hread & Hplan)]].
    - rewrite Hmissing. simpl. eauto.
    - destruct (isfile (disk w) (plan ns)); simpl; [|eauto].
      rewrite Hread. simpl. eauto.
    - destruct (isfile (disk w) (plan ns)); simpl; [|eauto].
      rewrite Hread. simpl.
      destruct (contains marker raw); rewrite Hplan; simpl; eauto. }
  destruct Hexec as (w' & Hexec & Hsent). exists w'.
  split; [exact Hexec|]. split; [exact Hsent|].
  rewrite session_cons. cbn [perform sender_step]. now rewrite Hexec.
Qed.

(** C9 (as the code has it). An [ExecutionDurationUpdateEvent] whose
    [isRunning] is true logs nothing.  One whose [isRunning] is false and
    whose duration is an integer of milliseconds logs the record [Final
    execution time: {:.2f}s] with the binary64 quotient of the duration by
    1000, which is shown with two decimals: for the duration 12345 the
    message is [Final execution time: 12.35s]. *)
Theorem final_duration_is_shown_with_two_decimals raw event dur_ms is_running w :
  json_loads raw = Ok event →
  duration_update event dur_ms is_running →
  (py_truthy is_running = true → dispatch raw w = (w, Ok tt)) ∧
  (py_truthy is_running = false →
   ∀ n x, dur_ms = JInt n → true_divide n 1000 = Ok x →
     dispatch raw w =
       (with_log w [LogRecord INFO "Final execution time: {:.2f}s" [AFloat x]], Ok tt) ∧
     render_duration (LogRecord INFO "Final execution time: {:.2f}s" [AFloat x])
       = Some ("Final execution time: " +:+ format_2f x +:+ "s")%string ∧
     (n = 12345%Z →
      render_duration (LogRecord INFO "Final execution time: {:.2f}s" [AFloat x])
        = Some "Final execution time: 12.35s")).
Proof.
  intros Hloads (Htype & Hdur & Hrunning).
  assert (Hdispatch : dispatch raw w = on_duration_update event w).
  { unfold dispatch, bind, lift. now rewrite Hloads, Htype. }
  rewrite Hdispatch. unfold on_duration_update, bind, lift. rewrite Hdur, Hrunning.
  split.
  - now intros ->.
  - intros -> n x -> Hx. simpl. rewrite Hx. split; [reflexivity|].
    split; [reflexivity|].
    intros ->. vm_compute in Hx. injection Hx as <-. reflexivity.
Qed.

End ClientClaims.

(** *** The examples of the client *)

Lemma requested_page_is_exported_witness :
  ∃ w3,
    dispatch (rt := interpreter) (os := memory_disk) (dumps page_event)
      (session (rt := interpreter)
         [page_command "out" 50; Command NsKill; Frame (dumps state_event)] fresh).1
      = (w3, Ok tt) ∧
    disk w3 = [("out/opA_50_3.jsonl", jsonl result_rows)] ∧
    lines (jsonl result_rows) = map dumps result_rows ∧
    length (lines (jsonl result_rows)) = 50%nat ∧
    export_requests w3 !! ("opA", 3%Z) = None.
Proof.
  apply (requested_page_is_exported (rt := interpreter) (os := memory_disk)
           fresh "out" [Command NsKill; Frame (dumps state_event)] _
           (dumps page_event) page_event result_rows no_files).
  - vm_compute; reflexivity.
  - constructor; [exact I|]. constructor; [|constructor].
    intros event Hloads (evt & pg & text & Htype & Hevt & _).
    vm_compute in Hloads. injection Hloads as <-.
    vm_compute in Htype. injection Htype as <-. vm_compute in Hevt. discriminate.
  - vm_compute; reflexivity.
  - repeat split; reflexivity.
  - reflexivity.
  - vm_compute; reflexivity.
  - vm_compute; reflexivity.
Defined.

Lemma second_result_is_ignored_witness :
  ∃ w2,
    w2 = (session (rt := interpreter) [Command NsKill]
            (dispatch (rt := interpreter) (dumps page_event)
               (session (rt := interpreter) [page_command "out" 50] fresh).1).1).1 ∧
    disk w2 = [("out/opA_50_3.jsonl", jsonl result_rows)] ∧
    export_requests w2 = ∅ ∧
    disk (dispatch (rt := interpreter) (dumps page_event) w2).1 = disk w2 ∧
    export_requests (dispatch (rt := interpreter) (dumps page_event) w2).1
      = export_requests w2.
Proof.
  eexists. split; [reflexivity|]. split; [vm_compute; reflexivity|].
  split; [vm_compute; reflexivity|].
  apply (second_result_is_ignored (rt := interpreter) (os := memory_disk)
           (session (rt := interpreter) [page_command "out" 50] fresh).1
           ("opA", 3%Z) ("out"%string, 50%Z) (dumps page_event) page_event
           (dispatch (rt := interpreter) (dumps page_event)
              (session (rt := interpreter) [page_command "out" 50] fresh).1).1
           [Command NsKill] _ (dumps page_event) page_event).
  - vm_compute; reflexivity.
  - vm_compute; reflexivity.
  - exists (JStr "PaginatedResultEvent"), (JInt 3), "3"%string. repeat split; reflexivity.
  - vm_compute; reflexivity.
  - vm_compute; reflexivity.
  - constructor; [exact I|constructor].
  - vm_compute; reflexivity.
  - exists (JStr "PaginatedResultEvent"), (JInt 3), "3"%string. repeat split; reflexivity.
Defined.

Lemma latest_request_wins_witness :
  export_requests
    (session (rt := interpreter) [page_command "first" 50; page_command "second" 10] fresh).1
    !! ("opA", 3%Z) = Some ("second"%string, 10%Z) ∧
  ∃ w3,
    dispatch (rt := interpreter) (dumps page_event)
      (session (rt := interpreter)
         [page_command "first" 50; page_command "second" 10] fresh).1 = (w3, Ok tt) ∧
    disk w3 = [("second/opA_10_3.jsonl", jsonl result_rows)] ∧
    export_requests w3 !! ("opA", 3%Z) = None.
Proof.
  destruct (latest_request_wins (rt := interpreter) (os := memory_disk)
              fresh "opA" 3 "first" 50 "second" 10 [] []
              (session (rt := interpreter)
                 [page_command "first" 50; page_command "second" 10] fresh).1)
    as [Htable Hexport].
  - vm_compute; reflexivity.
  - constructor.
  - split; [exact Htable|].
    apply (Hexport (dumps page_event) page_event result_rows no_files).
    + vm_compute; reflexivity.
    + repeat split; reflexivity.
    + vm_compute; reflexivity.
    + vm_compute; reflexivity.
Defined.

Lemma unusable_plan_sends_nothing_witness :
  ∃ w',
    handle_exec (rt := interpreter) (ExecArgs "plan.json" None) with_broken_plan
      = (w', Ok tt) ∧
    sent w' = [] ∧
    session (rt := interpreter) [Command (NsExec (ExecArgs "plan.json" None)); Command NsKill]
      with_broken_plan
      = session (rt := interpreter) [Command NsKill] w'.
Proof.
  apply (unusable_plan_sends_nothing (rt := interpreter) (os := memory_disk)
           with_broken_plan (ExecArgs "plan.json" None) [Command NsKill]).
  right. right. exists "{ operators"%string, JSONDecodeError. split; reflexivity.
Defined.

Lemma final_duration_is_shown_with_two_decimals_witness :
  (py_truthy (JBool false) = true →
   dispatch (rt := interpreter) (dumps duration_event) fresh = (fresh, Ok tt)) ∧
  (py_truthy (JBool false) = false →
   ∀ n x, JInt 12345 = JInt n → true_divide n 1000 = Ok x →
     dispatch (rt := interpreter) (dumps duration_event) fresh =
       (with_log fresh [LogRecord INFO "Final execution time: {:.2f}s" [AFloat x]], Ok tt) ∧
     render_duration (LogRecord INFO "Final execution time: {:.2f}s" [AFloat x])
       = Some ("Final execution time: " +:+ format_2f x +:+ "s")%string ∧
     (n = 12345%Z →
      render_duration (LogRecord INFO "Final execution time: {:.2f}s" [AFloat x])
        = Some "Final execution time: 12.35s")).
Proof.
  apply (final_duration_is_shown_with_two_decimals (rt := interpreter) (os := memory_disk)
           (dumps duration_event) duration_event (JInt 12345) (JBool false) fresh).
  - vm_compute; reflexivity.
  - repeat split; reflexivity.
Defined.

(** C9, as stated, fails: the event of a run of 12345 ms is reported as
    [12.35s], not as 12.345 seconds, and the value that is shown, the
    binary64 quotient, is not the exact quotient either. *)
Lemma duration_12345_is_shown_as_12_35 :
  ∃ x,
    dispatch (rt := interpreter) (os := memory_disk) (dumps duration_event) fresh =
      (with_log fresh [LogRecord INFO "Final execution time: {:.2f}s" [AFloat x]], Ok tt) ∧
    render_duration (LogRecord INFO "Final execution time: {:.2f}s" [AFloat x])
      = Some "Final execution time: 12.35s" ∧
    render_duration (LogRecord INFO "Final execution time: {:.2f}s" [AFloat x])
      ≠ Some "Final execution time: 12.345s" ∧
    x = Float64 false 6949617174986097 (-49) ∧
    (6949617174986097 * 1000 ≠ 12345 * 2 ^ 49)%Z.
Proof.
  exists (Float64 false 6949617174986097 (-49)).
  split; [vm_compute; reflexivity|]. split; [vm_compute; reflexivity|].
  split; [vm_compute; discriminate|]. split; [reflexivity|]. vm_compute. discriminate.
Qed.

(** ** Further properties of the plan converter *)

Lemma new_operator_reads operator record k :
  new_operator operator = Ok record → k ∈ structural_fields →
  ∃ v, getitem operator k = Ok v.
Proof.
  unfold new_operator. intros Hnew Hk. ok_inv Hnew.
  destruct a; try discriminate. ok_inv Hnew.
  unfold structural_fields in Hk.
  repeat (apply elem_of_cons in Hk as [->|Hk]); [..|by apply elem_of_nil in Hk]; eauto.
Qed.

Section ConverterExtras.
Context {rt : Runtime}.

(** X1. The operators of a returned plan are those of the document, one
    record for each and in the same order, and every record carries the
    [operatorID], [operatorType], [inputPorts] and [outputPorts] of its
    operator. *)
Theorem plan_operators_follow_document raw d plan :
  json_loads raw = Ok d →
  convertWorkflowContentToLogicalPlan raw = Ok plan →
  ∃ records, getitem plan "operators" = Ok (JArr records) ∧
             Forall2 same_structure (operators_of d) records.
Proof.
  intros Hloads Hconv.
  unfold convertWorkflowContentToLogicalPlan in Hconv. rewrite Hloads in Hconv.
  simpl in Hconv.
  destruct (convert_workflow_dict_ok d plan Hconv)
    as (operators & ops & links & lks & plan_operators & plan_links & ids & view & reuse
        & Hoperators & Hops & _ & _ & Hfor & _ & _ & _ & _ & ->).
  pose proof (converted_operators _ _ _ _ Hoperators Hops Hfor) as ->.
  exists plan_operators. split; [reflexivity|].
  apply for_each_ok in Hfor. eapply Forall2_impl; [exact Hfor|].
  intros op record Hnew k Hk.
  destruct (new_operator_reads _ _ _ Hnew Hk) as [v Hv].
  exists v. split; [exact Hv|]. now rewrite (new_operator_structural _ _ _ Hnew Hk).
Qed.

End ConverterExtras.

Lemma plan_operators_follow_document_witness :
  ∃ records,
    getitem workflow_plan "operators" = Ok (JArr records) ∧
    Forall2 same_structure (operators_of workflow) records.
Proof.
  apply (plan_operators_follow_document (rt := interpreter) (dumps workflow) workflow);
    vm_compute; reflexivity.
Defined.

(** X2. The flattened record of an operator answers every key: one of the
    four structural fields with the value of the operator, any other key
    with what [operatorProperties] holds under it, an absent key being
    absent from the record.  In particular the record has no
    [operatorProperties] of its own. *)
Theorem flattened_record_lookup operator fields record k :
  getitem operator "operatorProperties" = Ok (JObj fields) →
  new_operator operator = Ok record →
  getitem record k =
    if bool_decide (k ∈ structural_fields) then getitem operator k
    else getitem (JObj fields) k.
Proof.
  intros Hprops Hnew. case_bool_decide as Hk.
  - exact (new_operator_structural _ _ _ Hnew Hk).
  - exact (new_operator_property _ _ _ _ Hprops Hnew Hk).
Qed.

Lemma flattened_record_lookup_witness :
  getitem (JObj [("limit", JInt 10); ("operatorID", JStr "A");
                 ("operatorType", JStr "Scan"); ("inputPorts", JArr []);
                 ("outputPorts", JArr [port "out0"; port "out1"])]) "limit" =
    if bool_decide ("limit"%string ∈ structural_fields) then getitem operator_A "limit"
    else getitem (JObj [("limit", JInt 10)]) "limit".
Proof.
  apply (flattened_record_lookup operator_A [("limit", JInt 10)]); reflexivity.
Defined.

(** X3. The lookup of a port hands out the first port that carries the
    [portID]: the ports after it are not looked at, so that a second port
    with the same [portID], or a later port without any, changes nothing. *)
Theorem port_ordinal_first_match pre port post pid :
  Forall (λ p, has_field "portID" p = true ∧ has_id "portID" pid p = false) pre →
  has_id "portID" pid port = true →
  port_ordinal (JArr (pre ++ port :: post)) pid = Ok (length pre).
Proof.
  intros Hpre Hport. unfold port_ordinal. simpl.
  enough (Hgen : ∀ i,
    next_index_where
      (λ p, let* id := getitem p "portID" in Ok (py_eq id pid)) i (pre ++ port :: post)
    = Ok (i + length pre)%nat) by apply (Hgen 0%nat).
  induction Hpre as [|p pre [Hfield Hid] _ IH]; intros i; simpl.
  - rewrite (id_test_complete _ _ _ Hport). simpl. f_equal. lia.
  - unfold has_field in Hfield. unfold has_id in Hid.
    destruct (getitem p "portID") as [v|]; [|discriminate]. simpl. rewrite Hid.
    rewrite IH. f_equal. lia.
Qed.

Lemma port_ordinal_first_match_witness :
  port_ordinal (JArr ([port "a"; port "b"] ++ port "c" :: [port "c"; JNull])) (JStr "c")
    = Ok (length [port "a"; port "b"]).
Proof.
  apply (port_ordinal_first_match [port "a"; port "b"] (port "c") [port "c"; JNull]).
  - repeat constructor.
  - reflexivity.
Defined.

(** *** The exceptions of the conversion *)

Lemma rbind_conversion_errors {A B} (r : result A) (k : A → result B) :
  raises_only_conversion_errors r →
  (∀ a, r = Ok a → raises_only_conversion_errors (k a)) →
  raises_only_conversion_errors (rbind r k).
Proof.
  intros Hr Hk e. destruct r as [a|e']; simpl.
  - now apply Hk.
  - intros [= <-]. now apply Hr.
Qed.

Lemma ok_conversion_errors {A} (a : A) : raises_only_conversion_errors (Ok a).
Proof. intros e. discriminate. Qed.

Lemma getitem_conversion_errors obj key : raises_only_conversion_errors (getitem obj key).
Proof.
  intros e. destruct obj; simpl; try (intros [= <-]; reflexivity).
  destruct (dict_lookup key fields); [discriminate|]. now intros [= <-].
Qed.

Lemma get_conversion_errors obj key default :
  raises_only_conversion_errors (get obj key default).
Proof.
  intros e. destruct obj; simpl; try (intros [= <-]; reflexivity).
  destruct (dict_lookup key fields); discriminate.
Qed.

Lemma py_iter_conversion_errors v : raises_only_conversion_errors (py_iter v).
Proof. intros e. destruct v; simpl; try discriminate; now intros [= <-]. Qed.

Lemma next_where_conversion_errors test items :
  (∀ x, raises_only_conversion_errors (test x)) →
  raises_only_conversion_errors (next_where test items).
Proof.
  intros Htest. induction items as [|x rest IH]; simpl.
  - now intros e [= <-].
  - apply rbind_conversion_errors; [apply Htest|].
    intros [] _; [apply ok_conversion_errors|exact IH].
Qed.

Lemma next_index_where_conversion_errors test i items :
  (∀ x, raises_only_conversion_errors (test x)) →
  raises_only_conversion_errors (next_index_where test i items).
Proof.
  intros Htest. revert i. induction items as [|x rest IH]; intros i; simpl.
  - now intros e [= <-].
  - apply rbind_conversion_errors; [apply Htest|].
    intros [] _; [apply ok_conversion_errors|apply IH].
Qed.

Lemma for_each_conversion_errors body items :
  (∀ x, raises_only_conversion_errors (body x)) →
  raises_only_conversion_errors (for_each body items).
Proof.
  intros Hbody. induction items as [|x rest IH]; simpl.
  - apply ok_conversion_errors.
  - apply rbind_conversion_errors; [apply Hbody|]. intros y _.
    apply rbind_conversion_errors; [exact IH|]. intros ys _. apply ok_conversion_errors.
Qed.

(** Goes through a sequence of [let*] whose steps raise errors of the
    conversion only. *)
Ltac conversion_errors :=
  repeat first
    [ apply ok_conversion_errors
    | apply getitem_conversion_errors
    | apply get_conversion_errors
    | apply py_iter_conversion_errors
    | apply next_where_conversion_errors; intros ?
    | apply next_index_where_conversion_errors; intros ?
    | apply for_each_conversion_errors; intros ?
    | apply rbind_conversion_errors; [|intros ? _] ].

Lemma find_operator_conversion_errors d opid :
  raises_only_conversion_errors (find_operator d opid).
Proof. unfold find_operator. conversion_errors. Qed.

Lemma port_ordinal_conversion_errors ports pid :
  raises_only_conversion_errors (port_ordinal ports pid).
Proof. unfold port_ordinal. conversion_errors. Qed.

Lemma new_operator_conversion_errors operator :
  raises_only_conversion_errors (new_operator operator).
Proof.
  unfold new_operator. apply rbind_conversion_errors; [apply getitem_conversion_errors|].
  intros props _. destruct props; try (intros e [= <-]; reflexivity).
  conversion_errors.
Qed.

Lemma new_link_conversion_errors d link : raises_only_conversion_errors (new_link d link).
Proof.
  unfold new_link, get_output_port_ordinal, get_input_port_ordinal.
  repeat first
    [ apply find_operator_conversion_errors
    | apply port_ordinal_conversion_errors
    | apply ok_conversion_errors
    | apply getitem_conversion_errors
    | apply rbind_conversion_errors; [|intros ? _] ].
Qed.

Lemma operator_id_set_conversion_errors ops so :
  raises_only_conversion_errors (operator_id_set ops so).
Proof.
  revert so. induction ops as [|op rest IH]; intros so; simpl.
  - apply ok_conversion_errors.
  - apply rbind_conversion_errors; [apply getitem_conversion_errors|]. intros id _.
    destruct (hashable id); [apply IH|]. now intros e [= <-].
Qed.

Lemma intersection_loop_conversion_errors so others acc :
  raises_only_conversion_errors (intersection_loop so others acc).
Proof.
  revert acc. induction others as [|key rest IH]; intros acc; simpl.
  - apply ok_conversion_errors.
  - destruct (hashable key); [|now intros e [= <-]].
    destruct (set_contains so key); [|apply IH].
    destruct (length so <=? length (set_add_entry acc key))%nat;
      [apply ok_conversion_errors|apply IH].
Qed.

Section ConversionErrors.
Context {rt : Runtime}.

Lemma filter_ids_conversion_errors d ids field :
  raises_only_conversion_errors (filter_ids d ids field).
Proof.
  unfold filter_ids, intersection.
  repeat first
    [ apply intersection_loop_conversion_errors
    | apply ok_conversion_errors
    | apply get_conversion_errors
    | apply py_iter_conversion_errors
    | apply rbind_conversion_errors; [|intros ? _] ].
Qed.

(** X4. Once the text is decoded, the conversion raises nothing but a
    [KeyError], a [TypeError], an [AttributeError] or the [StopIteration] of
    a failed lookup. *)
Theorem conversion_raises_lookup_errors raw d e :
  json_loads raw = Ok d →
  convertWorkflowContentToLogicalPlan raw = Raise e →
  conversion_error e = true.
Proof.
  intros Hloads. unfold convertWorkflowContentToLogicalPlan. rewrite Hloads. simpl.
  revert e. change (raises_only_conversion_errors (convert_workflow_dict d)).
  unfold convert_workflow_dict.
  repeat first
    [ apply filter_ids_conversion_errors
    | apply operator_id_set_conversion_errors
    | apply for_each_conversion_errors; intros ?
    | apply new_operator_conversion_errors
    | apply new_link_conversion_errors
    | apply ok_conversion_errors
    | apply get_conversion_errors
    | apply py_iter_conversion_errors
    | apply rbind_conversion_errors; [|intros ? _] ].
Qed.

End ConversionErrors.

Lemma conversion_raises_lookup_errors_witness : conversion_error StopIteration = true.
Proof.
  apply (conversion_raises_lookup_errors (rt := interpreter)
           (dumps dangling_workflow) dangling_workflow);
    vm_compute; reflexivity.
Defined.

Section ConverterEdges.
Context {rt : Runtime}.

(** X5. The loops read the operators with [get] and a default, the lookup
    of a port reads them with a subscript: a document that has a link with a
    source endpoint and no ["operators"] at all raises [KeyError] for
    ["operators"], not the [StopIteration] of a port that is not found. *)
Theorem link_without_operators_raises_key_error raw fields link rest source fromOp fromPort :
  json_loads raw = Ok (JObj fields) →
  dict_lookup "operators" fields = None →
  dict_lookup "links" fields = Some (JArr (link :: rest)) →
  getitem link "source" = Ok source →
  getitem source "operatorID" = Ok fromOp →
  getitem source "portID" = Ok fromPort →
  convertWorkflowContentToLogicalPlan raw = Raise (KeyError "operators").
Proof.
  intros Hloads Hops Hlinks Hsource HfromOp HfromPort.
  unfold convertWorkflowContentToLogicalPlan. rewrite Hloads. simpl.
  unfold convert_workflow_dict. simpl get. rewrite Hops, Hlinks. simpl.
  unfold new_link. rewrite Hsource. simpl. rewrite HfromOp. simpl. rewrite HfromPort. simpl.
  unfold get_output_port_ordinal, find_operator. simpl. now rewrite Hops.
Qed.

(** X6. The four lists are optional: a document that has none of
    ["operators"], ["links"], ["opsToViewResult"] and ["opsToReuseResult"],
    whatever else it holds, is converted to the plan of four empty lists. *)
Theorem document_without_lists_gives_empty_plan raw fields :
  json_loads raw = Ok (JObj fields) →
  dict_lookup "operators" fields = None →
  dict_lookup "links" fields = None →
  dict_lookup "opsToViewResult" fields = None →
  dict_lookup "opsToReuseResult" fields = None →
  convertWorkflowContentToLogicalPlan raw = Ok empty_plan.
Proof.
  intros Hloads Hops Hlinks Hview Hreuse.
  unfold convertWorkflowContentToLogicalPlan. rewrite Hloads. simpl.
  unfold convert_workflow_dict, filter_ids, intersection. simpl get.
  rewrite Hops, Hlinks, Hview, Hreuse. simpl.
  pose proof (set_order_perm []) as Hperm. apply Permutation_nil_r in Hperm.
  now rewrite Hperm.
Qed.

End ConverterEdges.

Lemma link_without_operators_raises_key_error_witness :
  convertWorkflowContentToLogicalPlan (rt := wider_interpreter) (dumps orphan_link_workflow)
    = Raise (KeyError "operators").
Proof.
  apply (link_without_operators_raises_key_error (rt := wider_interpreter)
           (dumps orphan_link_workflow)
           [("links", JArr [JObj [("source", endpoint "A" "out0");
                                  ("target", endpoint "B" "in0")]])]
           (JObj [("source", endpoint "A" "out0"); ("target", endpoint "B" "in0")])
           [] (endpoint "A" "out0") (JStr "A") (JStr "out0"));
    vm_compute; reflexivity.
Defined.

Lemma document_without_lists_gives_empty_plan_witness :
  convertWorkflowContentToLogicalPlan (rt := wider_interpreter) (dumps blank_workflow)
    = Ok empty_plan.
Proof.
  apply (document_without_lists_gives_empty_plan (rt := wider_interpreter)
           (dumps blank_workflow) [("operatorPositions", JObj [])]);
    vm_compute; reflexivity.
Defined.



(** ** Further properties of the client *)

(** *** The send handlers *)

Section HandlerExtras.
Context {rt : Runtime} {os : FileSystem}.

Lemma handle_exec_run ns w :
  ∃ w', handle_exec ns w = (w', Ok tt) ∧
        (sent w' = sent w ∨ ∃ payload, sent w' = sent w ++ [payload]).
Proof.
  unfold handle_exec, bind, from_disk, try_except, lift, logger, ret, ws_send.
  destruct (isfile (disk w) (plan ns)); simpl; [|eauto].
  destruct (read_text (disk w) (plan ns)) as [raw|e]; simpl; [|eauto].
  destruct (contains marker raw).
  - destruct (convertWorkflowContentToLogicalPlan raw); simpl; eauto.
  - destruct (json_loads raw); simpl; eauto.
Qed.




End HandlerExtras.


(** *** The receiver *)

Section SentFrames.
Context {rt : Runtime} {os : FileSystem}.

Lemma same_sent_refl w : same_sent w w.
Proof. reflexivity. Qed.

Lemma same_sent_trans w1 w2 w3 : same_sent w1 w2 → same_sent w2 w3 → same_sent w1 w3.
Proof. unfold same_sent. congruence. Qed.

Lemma logger_sent lvl template args : preserves same_sent (logger lvl template args).
Proof. intros w. reflexivity. Qed.

Lemma set_export_requests_sent t : preserves same_sent (set_export_requests t).
Proof. intros w. reflexivity. Qed.

Lemma on_disk_sent op : preserves same_sent (on_disk op).
Proof. intros w. unfold on_disk. now destruct (op (disk w)). Qed.

End SentFrames.

(** Goes through an action made of steps that send nothing. *)
Ltac nothing_sent :=
  repeat first
    [ apply logger_sent
    | apply set_export_requests_sent
    | apply on_disk_sent
    | apply preserves_ret, same_sent_refl
    | apply preserves_raise, same_sent_refl
    | apply preserves_lift, same_sent_refl
    | apply preserves_from_disk, same_sent_refl
    | apply preserves_get_export_requests, same_sent_refl
    | apply preserves_bind; [apply same_sent_trans| |intros ?]
    | apply preserves_for_each_do; [apply same_sent_refl|apply same_sent_trans|intros ?]
    | match goal with
      | |- preserves _ (if ?b then _ else _) => destruct b
      | |- preserves _ (match ?x with _ => _ end) => destruct x
      end ].

Section ReceiverExtras.
Context {rt : Runtime} {os : FileSystem}.

Lemma export_rows_sent op pg rows : preserves same_sent (export_rows op pg rows).
Proof.
  unfold export_rows.
  destruct (negb (hashable op && hashable pg)); [nothing_sent|].
  apply preserves_bind;
    [apply same_sent_trans|apply preserves_get_export_requests, same_sent_refl|].
  intros t. destruct (lookup_export t op pg) as [[[key text] [out_dir req_size]]|];
    nothing_sent.
Qed.

Lemma dispatch_sent raw : preserves same_sent (dispatch raw).
Proof.
  unfold dispatch, on_duration_update, on_workflow_state, on_result_update,
    on_paginated_result.
  repeat first [ apply export_rows_sent | progress nothing_sent ].
Qed.

(** X11. The receiver sends nothing: whatever the frames hold, and whether
    it ends with the connection or with an exception, what was sent after it
    is what had been sent before. *)
Theorem receiver_sends_nothing frames w : sent (receiver frames w).1 = sent w.
Proof.
  revert w. change (preserves same_sent (receiver frames)).
  unfold receiver.
  apply preserves_bind; [apply same_sent_trans| |intros _; apply logger_sent].
  apply preserves_for_each_do;
    [apply same_sent_refl|apply same_sent_trans|apply dispatch_sent].
Qed.

(** X12. An event whose type is none of the four that the receiver
    handles, or that has no type, is ignored: the frame is handled without
    exception and nothing changes, not even the log. *)
Theorem unknown_event_is_ignored raw event evt w :
  json_loads raw = Ok event →
  get event "type" JNull = Ok evt →
  Forall (λ kind, py_eq evt (JStr kind) = false) event_kinds →
  dispatch raw w = (w, Ok tt).
Proof.
  intros Hloads Htype Hkinds. unfold dispatch, bind, lift. rewrite Hloads, Htype.
  unfold event_kinds in Hkinds.
  repeat match goal with
  | H : Forall _ (_ :: _) |- _ => apply Forall_cons in H as [? H]
  end.
  repeat match goal with H : py_eq evt _ = false |- _ => rewrite H; clear H end.
  reflexivity.
Qed.


End ReceiverExtras.

Section ExportEdges.
Context {rt : Runtime} {os : FileSystem}.

Lemma on_paginated_result_reaches_export event op pg rows each w :
  getitem event "operatorID" = Ok op → getitem event "pageIndex" = Ok pg →
  get event "table" (JArr []) = Ok rows → py_iter rows = Ok each →
  has_field "schema" event = true →
  ∃ w1, same_but_log w w1 ∧ on_paginated_result event w = export_rows op pg each w1.
Proof.
  intros Hop Hpg Hrows Heach Hschema.
  unfold on_paginated_result, bind, lift. rewrite Hop, Hpg, Hrows.
  assert (Hlen : ∃ n, py_len rows = Ok n)
    by (destruct rows; try discriminate; simpl; eauto).
  destruct Hlen as [n ->]. simpl.
  unfold has_field in Hschema.
  destruct (getitem event "schema") as [schema|]; [|discriminate]. simpl.
  rewrite Heach.
  match goal with |- context [for_each_do ?body each ?w0] =>
    destruct (log_rows "Row: {}" each w0) as (w1 & -> & Hsame) end.
  exists w1. split; [|reflexivity].
  destruct Hsame as (? & ? & ?). now repeat split.
Qed.

(** X14. A page index that is a boolean answers the request of the page 1
    or 0, as [True == 1] and [False == 0] with the same hash: the request is
    consumed and the rows are exported, to a file whose name ends with
    [True] or [False] in place of the number of the page. *)
Theorem boolean_page_index_answers_request raw event o b rows dir size d1 d2 w :
  json_loads raw = Ok event →
  get event "type" JNull = Ok (JStr "PaginatedResultEvent") →
  getitem event "operatorID" = Ok (JStr o) →
  getitem event "pageIndex" = Ok (JBool b) →
  get event "table" (JArr []) = Ok (JArr rows) →
  has_field "schema" event = true →
  export_requests w !! (o, int_of_bool b) = Some (dir, size) →
  mkdir_parents dir (disk w) = (d1, None) →
  write_text
    (joinpath dir
       (o +:+ "_" +:+ str_int size +:+ "_" +:+ (if b then "True" else "False") +:+ ".jsonl"))
    (jsonl rows) d1 = (d2, None) →
  ∃ w', dispatch raw w = (w', Ok tt) ∧ disk w' = d2 ∧
        export_requests w' = delete (o, int_of_bool b) (export_requests w).
Proof.
  intros Hloads Htype Hop Hpg Hrows Hschema Hentry Hmkdir Hwrite.
  rewrite (dispatch_event raw event w Hloads Htype).
  destruct (on_paginated_result_reaches_export event _ _ _ rows w Hop Hpg Hrows eq_refl Hschema)
    as (w1 & (Hreq & Hdisk & _) & ->).
  unfold export_rows, bind, get_export_requests, set_export_requests, on_disk, logger,
    lookup_export.
  simpl. rewrite Hreq, Hentry. simpl. rewrite Hdisk, Hmkdir. simpl.
  fold (jsonl rows). rewrite Hwrite. simpl.
  eexists. split; [reflexivity|]. auto.
Qed.

(** X15. The request leaves the table before the directory is made: when
    the directory cannot be made, or the file cannot be written, the frame
    raises the exception of the file system and the request is consumed all
    the same, so that the page cannot be exported by a later event. *)
Theorem failed_export_consumes_request raw event o n rows dir size d e w :
  json_loads raw = Ok event →
  paginated_result event o n rows →
  export_requests w !! (o, n) = Some (dir, size) →
  export_fails dir (export_name o size n) rows w d e →
  ∃ w', dispatch raw w = (w', Raise e) ∧ disk w' = d ∧
        export_requests w' = delete (o, n) (export_requests w) ∧
        export_requests w' !! (o, n) = None.
Proof.
  intros Hloads Hevent Hentry Hfails.
  rewrite (dispatch_event raw event w Hloads (proj1 Hevent)).
  destruct (on_paginated_result_export event o n rows w Hevent)
    as (w1 & (Hreq & Hdisk & _) & ->).
  unfold export_rows, bind, get_export_requests, set_export_requests, on_disk, logger,
    lookup_export.
  simpl. rewrite Hreq, Hentry. simpl. rewrite Hdisk.
  fold (jsonl rows). fold (export_name o size n).
  destruct Hfails as [Hmkdir|(d1 & Hmkdir & Hwrite)]; rewrite Hmkdir; simpl.
  - eexists. split; [reflexivity|]. simpl.
    split; [reflexivity|]. split; [reflexivity|]. apply lookup_delete_eq.
  - rewrite Hwrite. simpl. eexists. split; [reflexivity|]. simpl.
    split; [reflexivity|]. split; [reflexivity|]. apply lookup_delete_eq.
Qed.

(** X16. The schema is read before the export and without a default: a
    [PaginatedResultEvent] that has no [schema] raises [KeyError] once its
    first line is logged, and its request stays in the table, no file being
    written and nothing sent. *)
Theorem event_without_schema_keeps_request raw event op pg rows n w :
  json_loads raw = Ok event →
  get event "type" JNull = Ok (JStr "PaginatedResultEvent") →
  getitem event "operatorID" = Ok op →
  getitem event "pageIndex" = Ok pg →
  get event "table" (JArr []) = Ok rows →
  py_len rows = Ok n →
  has_field "schema" event = false →
  dispatch raw w =
    (with_log w [LogRecord INFO "Result: operatorID={} size={} page={}"
                   [AJson op; AInt (Z.of_nat n); AJson pg]],
     Raise (KeyError "schema")).
Proof.
  intros Hloads Htype Hop Hpg Hrows Hlen Hschema.
  rewrite (dispatch_event raw event w Hloads Htype).
  unfold on_paginated_result, bind, lift. rewrite Hop, Hpg, Hrows, Hlen. simpl.
  unfold has_field in Hschema.
  assert (getitem event "schema" = Raise (KeyError "schema")) as ->; [|reflexivity].
  destruct event as [| | | | |fields]; try discriminate.
  simpl in *. destruct (dict_lookup "schema" fields); [discriminate|reflexivity].
Qed.

(** X17. The table is read with a default: a [PaginatedResultEvent] that
    has no [table] is a page without rows, and a request for it is answered
    with an empty file. *)
Theorem event_without_table_exports_empty_file raw event o n dir size d1 d2 w :
  json_loads raw = Ok event →
  get event "type" JNull = Ok (JStr "PaginatedResultEvent") →
  getitem event "operatorID" = Ok (JStr o) →
  getitem event "pageIndex" = Ok (JInt n) →
  has_field "table" event = false →
  has_field "schema" event = true →
  export_requests w !! (o, n) = Some (dir, size) →
  mkdir_parents dir (disk w) = (d1, None) →
  write_text (joinpath dir (export_name o size n)) EmptyString d1 = (d2, None) →
  ∃ w', dispatch raw w = (w', Ok tt) ∧ disk w' = d2 ∧
        export_requests w' !! (o, n) = None.
Proof.
  intros Hloads Htype Hop Hpg Htable Hschema Hentry Hmkdir Hwrite.
  assert (Hrows : get event "table" (JArr []) = Ok (JArr [])).
  { unfold has_field in Htable.
    destruct event as [| | | | |fields]; try discriminate. simpl in *.
    destruct (dict_lookup "table" fields); [discriminate|reflexivity]. }
  destruct (export_completion raw event o n [] dir size d1 d2 w Hloads)
    as (w' & Hrun & Hdisk & _ & Hreq); auto.
  { repeat split; assumption. }
  exists w'. split; [exact Hrun|]. split; [exact Hdisk|].
  rewrite Hreq. apply lookup_delete_eq.
Qed.

(** X18. The duration of a run that has ended is divided without a check:
    when it is absent, null, a string, a list or a dict, the frame raises
    [TypeError] and nothing is logged. *)
Theorem duration_that_is_no_number_raises raw event dur_ms is_running w :
  json_loads raw = Ok event →
  duration_update event dur_ms is_running →
  py_truthy is_running = false →
  not_a_number dur_ms = true →
  dispatch raw w = (w, Raise TypeError).
Proof.
  intros Hloads (Htype & Hdur & Hrunning) Hfalsy Hnan.
  unfold dispatch, bind, lift. rewrite Hloads, Htype. simpl.
  unfold on_duration_update, bind, lift. rewrite Hdur, Hrunning, Hfalsy. simpl.
  destruct dur_ms; try discriminate; reflexivity.
Qed.

(** X19. A [WebResultUpdateEvent] whose updates are dicts is logged with
    one record for each operator, in the order of the updates, the count
    being [None] for an operator that has no [totalNumTuples]; nothing else
    changes. *)
Theorem result_update_logs_each_operator raw event pairs w :
  json_loads raw = Ok event →
  get event "type" JNull = Ok (JStr "WebResultUpdateEvent") →
  get event "updates" (JObj []) = Ok (JObj pairs) →
  forallb (λ kv, is_dict kv.2) pairs = true →
  ∃ w', dispatch raw w = (w', Ok tt) ∧
        logged w' = logged w ++ map update_record pairs ∧
        same_but_log w w'.
Proof.
  intros Hloads Htype Hupdates Hdicts.
  unfold dispatch, bind, lift. rewrite Hloads, Htype. simpl.
  unfold on_result_update, bind, lift. rewrite Hupdates. simpl.
  clear Hloads Htype Hupdates. revert w.
  induction pairs as [|[op_id info] rest IH]; intros w; simpl in *.
  - exists w. split; [reflexivity|]. split; [now rewrite app_nil_r|].
    now repeat split.
  - apply andb_prop in Hdicts as [Hinfo Hrest].
    destruct info as [| | | | |fields]; try discriminate.
    unfold bind at 1. unfold update_record at 1. simpl.
    destruct (dict_lookup "totalNumTuples" fields) as [total|]; simpl;
      match goal with |- context [for_each_do ?body rest ?w0] =>
        destruct (IH Hrest w0) as (w' & Hrun & Hlog & Hreq & Hdisk & Hsent) end;
      exists w'; (split; [exact Hrun|]); simpl in *;
      (split; [now rewrite Hlog, <- app_assoc|now repeat split]).
Qed.

End ExportEdges.

(** *** The examples of the receiver *)

Lemma unknown_event_is_ignored_witness :
  dispatch (rt := wider_interpreter) (dumps legacy_event) fresh = (fresh, Ok tt).
Proof.
  apply (unknown_event_is_ignored (rt := wider_interpreter) (os := memory_disk)
           (dumps legacy_event) legacy_event (JStr "WorkerAssignmentUpdateEvent")).
  - vm_compute; reflexivity.
  - reflexivity.
  - repeat constructor.
Defined.


Lemma boolean_page_index_answers_request_witness :
  ∃ w',
    dispatch (rt := wider_interpreter) (dumps boolean_page_event) awaiting_page_1
      = (w', Ok tt) ∧
    disk w' = [("out/opA_50_True.jsonl", jsonl [JObj [("row", JInt 0)]])] ∧
    export_requests w' = delete ("opA"%string, int_of_bool true) (export_requests awaiting_page_1).
Proof.
  apply (boolean_page_index_answers_request (rt := wider_interpreter) (os := memory_disk)
           (dumps boolean_page_event) boolean_page_event "opA" true
           [JObj [("row", JInt 0)]] "out" 50 no_files);
    vm_compute; reflexivity.
Defined.

Lemma failed_export_consumes_request_witness :
  ∃ w',
    dispatch (rt := interpreter) (dumps page_event) awaiting_on_read_only_disk
      = (w', Raise (OSError 30)) ∧
    disk w' = nothing_written ∧
    export_requests w' = delete ("opA"%string, 3%Z) (export_requests awaiting_on_read_only_disk) ∧
    export_requests w' !! ("opA"%string, 3%Z) = None.
Proof.
  apply (failed_export_consumes_request (rt := interpreter) (os := read_only_disk)
           (dumps page_event) page_event "opA" 3 result_rows "out" 50).
  - vm_compute; reflexivity.
  - repeat split; reflexivity.
  - vm_compute; reflexivity.
  - left. reflexivity.
Defined.

Lemma event_without_schema_keeps_request_witness :
  dispatch (rt := wider_interpreter) (dumps schemaless_event) awaiting_page_3 =
    (with_log awaiting_page_3
       [LogRecord INFO "Result: operatorID={} size={} page={}"
          [AJson (JStr "opA"); AInt (Z.of_nat 1); AJson (JInt 3)]],
     Raise (KeyError "schema")).
Proof.
  apply (event_without_schema_keeps_request (rt := wider_interpreter) (os := memory_disk)
           (dumps schemaless_event) schemaless_event (JStr "opA") (JInt 3)
           (JArr [JObj [("row", JInt 0)]]));
    vm_compute; reflexivity.
Defined.

Lemma event_without_table_exports_empty_file_witness :
  ∃ w',
    dispatch (rt := wider_interpreter) (dumps tableless_event) awaiting_page_3
      = (w', Ok tt) ∧
    disk w' = [("out/opA_50_3.jsonl", EmptyString)] ∧
    export_requests w' !! ("opA"%string, 3%Z) = None.
Proof.
  apply (event_without_table_exports_empty_file (rt := wider_interpreter) (os := memory_disk)
           (dumps tableless_event) tableless_event "opA" 3 "out" 50 no_files);
    vm_compute; reflexivity.
Defined.

Lemma duration_that_is_no_number_raises_witness :
  dispatch (rt := wider_interpreter) (dumps durationless_event) fresh
    = (fresh, Raise TypeError).
Proof.
  apply (duration_that_is_no_number_raises (rt := wider_interpreter) (os := memory_disk)
           (dumps durationless_event) durationless_event JNull (JBool false)).
  - vm_compute; reflexivity.
  - repeat split; reflexivity.
  - reflexivity.
  - reflexivity.
Defined.

Lemma result_update_logs_each_operator_witness :
  ∃ w',
    dispatch (rt := wider_interpreter) (dumps update_event) fresh = (w', Ok tt) ∧
    logged w' =
      logged fresh ++
      map update_record [("opA"%string, JObj [("totalNumTuples", JInt 7)]);
                         ("opB"%string, JObj [("mode", JStr "table")])] ∧
    same_but_log fresh w'.
Proof.
  apply (result_update_logs_each_operator (rt := wider_interpreter) (os := memory_disk)
           (dumps update_event) update_event);
    vm_compute; reflexivity.
Defined.

(** *** Sessions *)

Section SessionExtras.
Context {rt : Runtime} {os : FileSystem}.

Lemma perform_entry key entry a w :
  export_requests (perform a w).1 !! key = Some entry →
  export_requests w !! key = Some entry ∨ requested [a] key entry.
Proof.
  destruct a as [[|ns|ns|]|raw]; cbn [perform sender_step].
  - rewrite (proj1 (handle_kill_same w)). auto.
  - destruct (handle_page_run ns w) as (w' & -> & _ & Hreq). cbn [fst]. rewrite Hreq.
    destruct (export ns) as [dir|] eqn:Hexport; [|auto].
    destruct (decide ((operator ns, page ns) = key)) as [<-|Hne].
    + rewrite lookup_insert_eq. intros [= <-]. right.
      exists ns. split; [apply list_elem_of_singleton; reflexivity|]. auto.
    + rewrite lookup_insert_ne by exact Hne. auto.
  - rewrite (proj1 (handle_exec_same ns w)). auto.
  - auto.
  - destruct (dispatch_requests raw w) as [->|(event & key' & _ & _ & ->)]; [auto|].
    intros [_ Hentry]%lookup_delete_Some. auto.
Qed.

Lemma requested_cons a schedule key entry :
  requested [a] key entry ∨ requested schedule key entry →
  requested (a :: schedule) key entry.
Proof.
  intros [(ns & Hin & H)|(ns & Hin & H)]; exists ns; (split; [|exact H]).
  - apply list_elem_of_singleton in Hin as ->. apply elem_of_cons. auto.
  - apply elem_of_cons. auto.
Qed.

(** X20. An export request is stored by a paginate command with an export
    directory and by nothing else: an entry of the table after a session was
    there before the session, or is the directory and the size that a
    paginate command of the session asked for under that key. *)
Theorem entries_come_from_page_commands schedule w key entry :
  export_requests (session schedule w).1 !! key = Some entry →
  export_requests w !! key = Some entry ∨ requested schedule key entry.
Proof.
  revert w. induction schedule as [|a rest IH]; intros w; [auto|].
  rewrite session_cons.
  destruct (perform a w) as [w' [[]|e]] eqn:Hstep; simpl.
  - intros [Hentry|Hrest]%IH.
    + pose proof (perform_entry key entry a w) as Hfirst. rewrite Hstep in Hfirst.
      destruct (Hfirst Hentry); auto using requested_cons.
    + auto using requested_cons.
  - intros Hentry.
    pose proof (perform_entry key entry a w) as Hfirst. rewrite Hstep in Hfirst.
    destruct (Hfirst Hentry); auto using requested_cons.
Qed.

(** X21. An export request has no expiry: as long as no paginate command
    stores its key again and no [PaginatedResultEvent] answers it, the entry
    stays in the table whatever the session does, be it for ever. *)
Theorem unanswered_request_persists schedule w key :
  Forall (leaves_request key) schedule →
  export_requests (session schedule w).1 !! key = export_requests w !! key.
Proof. apply session_leaves_request. Qed.

Lemma perform_sent a w :
  ∃ frames, sent (perform a w).1 = sent w ++ frames ∧ (length frames ≤ commands [a])%nat.
Proof.
  destruct a as [[|ns|ns|]|raw]; cbn [perform sender_step commands].
  - eexists [_]. split; [reflexivity|]. simpl. lia.
  - unfold handle_page, bind, get_export_requests, set_export_requests, logger, ws_send, ret.
    destruct (export ns); simpl; (eexists [_]; split; [reflexivity|simpl; lia]).
  - destruct (handle_exec_run ns w) as (w' & Hrun & [Hsent|[payload Hsent]]);
      rewrite Hrun; cbn [fst]; rewrite Hsent.
    + exists []. split; [now rewrite app_nil_r|simpl; lia].
    + exists [payload]. split; [reflexivity|simpl; lia].
  - exists []. split; [simpl; now rewrite app_nil_r|simpl; lia].
  - exists []. split; [|simpl; lia]. rewrite app_nil_r. apply dispatch_sent.
Qed.

Lemma commands_cons a schedule : commands (a :: schedule) = (commands [a] + commands schedule)%nat.
Proof. destruct a; reflexivity. Qed.

(** X22. What is sent only grows, and by the commands alone: after a
    session the frames sent before it are still the first ones, in their
    order, and at most one frame was added for each command; the frames
    received add none. *)
Theorem session_sends_one_frame_per_command_at_most schedule w :
  ∃ frames, sent (session schedule w).1 = sent w ++ frames ∧
            (length frames ≤ commands schedule)%nat.
Proof.
  revert w. induction schedule as [|a rest IH]; intros w.
  - exists []. split; [simpl; now rewrite app_nil_r|simpl; lia].
  - rewrite session_cons, commands_cons.
    destruct (perform_sent a w) as (first & Hfirst & Hlen).
    destruct (perform a w) as [w' [[]|e]]; simpl in *.
    + destruct (IH w') as (others & Hothers & Hlen').
      exists (first ++ others). split.
      * now rewrite Hothers, Hfirst, app_assoc.
      * rewrite length_app. lia.
    + exists first. split; [exact Hfirst|lia].
Qed.

End SessionExtras.

Lemma entries_come_from_page_commands_witness :
  export_requests fresh !! ("opA"%string, 3%Z) = Some ("second"%string, 10%Z) ∨
  requested [page_command "first" 50; page_command "second" 10]
    ("opA"%string, 3%Z) ("second"%string, 10%Z).
Proof.
  apply (entries_come_from_page_commands (rt := interpreter) (os := memory_disk)).
  vm_compute; reflexivity.
Defined.

Lemma unanswered_request_persists_witness :
  export_requests
    (session (rt := interpreter) [Command NsKill; Frame (dumps state_event)] awaiting_page_3).1
    !! ("opA"%string, 3%Z)
  = export_requests awaiting_page_3 !! ("opA"%string, 3%Z).
Proof.
  apply (unanswered_request_persists (rt := interpreter) (os := memory_disk)).
  constructor; [exact I|]. constructor; [|constructor].
  intros event Hloads (evt & pg & text & Htype & Hevt & _).
  vm_compute in Hloads. injection Hloads as <-.
  vm_compute in Htype. injection Htype as <-. vm_compute in Hevt. discriminate.
Defined.

(** ** Further properties of the numbers and of the text *)

Lemma round_half_even_near n d :
  (0 ≤ n)%Z → (0 < d)%Z →
  (0 ≤ round_half_even n d)%Z ∧
  (- d ≤ 2 * (d * round_half_even n d - n) ≤ d)%Z.
Proof.
  intros Hn Hd. unfold round_half_even.
  pose proof (Z.div_mod n d ltac:(lia)) as Hdiv.
  pose proof (Z.mod_pos_bound n d Hd) as Hmod.
  pose proof (Z.div_pos n d Hn Hd) as Hq.
  destruct (2 * (n mod d) >? d)%Z eqn:Hgt.
  - apply Z.gtb_lt in Hgt. split; nia.
  - assert (2 * (n mod d) ≤ d)%Z by (rewrite Z.gtb_ltb in Hgt; apply Z.ltb_ge in Hgt; lia).
    destruct (2 * (n mod d) =? d)%Z eqn:Heq.
    + apply Z.eqb_eq in Heq. destruct (Z.even (n / d)); split; nia.
    + split; nia.
Qed.

(** X23. For a duration below [2 ^ 40] ms, about 35 years, the division
    does not overflow and the two decimals that are shown are those of the
    duration rounded to 10 ms: ten times the hundredths shown differ from the
    milliseconds by 5 at most. *)
Theorem shown_duration_is_within_5_ms n :
  (Z.abs n < 2 ^ 40)%Z →
  ∃ x, true_divide n 1000 = Ok x ∧
       format_2f x =
         ((if (n <? 0)%Z then "-" else EmptyString) +:+
          str_int (hundredths x / 100) +:+ "." +:+
          two_digits (hundredths x mod 100))%string ∧
       (Z.abs (10 * hundredths x - Z.abs n) ≤ 5)%Z.
Proof.
  intros Hn. unfold true_divide.
  destruct (n =? 0)%Z eqn:Hzero.
  - apply Z.eqb_eq in Hzero as ->. eexists. split; [reflexivity|].
    split; [reflexivity|]. vm_compute. discriminate.
  - apply Z.eqb_neq in Hzero.
    set (N := Z.abs n) in *. assert (HN : (0 < N)%Z) by lia.
    set (e := Z.max (quotient_log2 N 1000 - 52) (-1074)).
    assert (He : (-1074 ≤ e ≤ -22)%Z).
    { unfold e, quotient_log2.
      assert (Z.log2 N < 40)%Z by (apply Z.log2_lt_pow2; lia).
      pose proof (Z.log2_nonneg N).
      change (Z.log2 1000) with 9%Z.
      repeat match goal with |- context [if ?b then _ else _] => destruct b end; lia. }
    assert ((0 <=? e)%Z = false) as -> by (apply Z.leb_gt; lia).
    assert ((971 <? e)%Z = false) as -> by (apply Z.ltb_ge; lia).
    assert ((e =? 971)%Z = false) as -> by (apply Z.eqb_neq; lia).
    simpl orb. cbv iota.
    set (P := (2 ^ (- e))%Z).
    assert (HP : (2 ^ 22 ≤ P)%Z) by (apply Z.pow_le_mono_r; lia).
    change (2 ^ 22)%Z with 4194304%Z in HP.
    set (m := round_half_even (N * P) 1000).
    destruct (round_half_even_near (N * P) 1000) as [Hm0 Hm]; [nia|lia|]. fold m in Hm0, Hm.
    eexists. split; [reflexivity|].
    split; [reflexivity|].
    unfold hundredths. cbn [exponent mantissa].
    assert ((0 <=? e)%Z = false) as -> by (apply Z.leb_gt; lia).
    fold P. set (h := round_half_even (m * 100) P).
    destruct (round_half_even_near (m * 100) P) as [_ Hh]; [lia|lia|]. fold h in Hh.
    assert (Hbound : (- (5 * P + 500) ≤ P * (10 * h - N) ≤ 5 * P + 500)%Z) by lia.
    apply Z.abs_le. split; nia.
Qed.

Lemma shown_duration_is_within_5_ms_witness :
  ∃ x, true_divide 12345 1000 = Ok x ∧
       format_2f x =
         ((if (12345 <? 0)%Z then "-" else EmptyString) +:+
          str_int (hundredths x / 100) +:+ "." +:+
          two_digits (hundredths x mod 100))%string ∧
       (Z.abs (10 * hundredths x - Z.abs 12345) ≤ 5)%Z.
Proof. apply (shown_duration_is_within_5_ms 12345). vm_compute. reflexivity. Defined.

Lemma string_app_assoc (s t u : string) : ((s +:+ t) +:+ u = s +:+ (t +:+ u))%string.
Proof.
  induction s as [|c s IH]; [reflexivity|].
  change (String c ((s +:+ t) +:+ u) = String c (s +:+ (t +:+ u)))%string. now rewrite IH.
Qed.

Lemma occurs_app c s t : occurs c (s +:+ t) = occurs c s || occurs c t.
Proof.
  induction s as [|c' s IH]; [reflexivity|].
  change (String c' s +:+ t)%string with (String c' (s +:+ t)). simpl.
  now rewrite IH, orb_assoc.
Qed.

(** A text is cut in one way at the last [c] that it holds. *)
Lemma cut_at_last c a a' t t' :
  occurs c t = false → occurs c t' = false →
  (a +:+ String c t = a' +:+ String c t')%string → a = a' ∧ t = t'.
Proof.
  intros Ht Ht'. revert a'. induction a as [|x a IH]; intros [|x' a'].
  - now intros [= ->].
  - change (String c t = String x' (a' +:+ String c t')%string → EmptyString = String x' a' ∧ t = t').
    intros [= <- ->]. rewrite occurs_app in Ht. simpl in Ht.
    rewrite Ascii.eqb_refl, orb_true_r in Ht. discriminate.
  - change (String x (a +:+ String c t)%string = String c t' → String x a = EmptyString ∧ t = t').
    intros [= -> <-]. rewrite occurs_app in Ht'. simpl in Ht'.
    rewrite Ascii.eqb_refl, orb_true_r in Ht'. discriminate.
  - change (String x (a +:+ String c t)%string = String x' (a' +:+ String c t')%string
            → String x a = String x' a' ∧ t = t').
    intros [= <- Heq]. destruct (IH _ Heq) as [-> ->]. auto.
Qed.

(** A text is cut in one way at the first [c] that it holds. *)
Lemma cut_at_first c a a' t t' :
  occurs c a = false → occurs c a' = false →
  (a +:+ String c t = a' +:+ String c t')%string → a = a' ∧ t = t'.
Proof.
  revert a'. induction a as [|x a IH]; intros [|x' a'] Ha Ha'.
  - now intros [= ->].
  - change (String c t = String x' (a' +:+ String c t')%string → EmptyString = String x' a' ∧ t = t').
    intros [= <- _]. simpl in Ha'. now rewrite Ascii.eqb_refl in Ha'.
  - change (String x (a +:+ String c t)%string = String c t' → String x a = EmptyString ∧ t = t').
    intros [= -> _]. simpl in Ha. now rewrite Ascii.eqb_refl in Ha.
  - change (String x (a +:+ String c t)%string = String x' (a' +:+ String c t')%string
            → String x a = String x' a' ∧ t = t').
    simpl in Ha, Ha'. apply orb_false_elim in Ha as [_ Ha]. apply orb_false_elim in Ha' as [_ Ha'].
    intros [= <- Heq]. destruct (IH _ Ha Ha' Heq) as [-> ->]. auto.
Qed.

Lemma str_int_plain c n : c = "_"%char ∨ c = "."%char → occurs c (str_int n) = false.
Proof.
  intros Hc. unfold str_int, NilZero.string_of_int.
  assert (Hempty : ∀ u, occurs c (NilEmpty.string_of_uint u) = false)
    by (induction u; destruct Hc as [-> | ->]; simpl; auto).
  assert (Hzero : ∀ u, occurs c (NilZero.string_of_uint u) = false).
  { intros u. unfold NilZero.string_of_uint.
    destruct u; try apply Hempty. destruct Hc as [-> | ->]; reflexivity. }
  destruct (Z.to_int n) as [u|u]; [apply Hzero|].
  simpl. rewrite Hzero. destruct Hc as [-> | ->]; reflexivity.
Qed.

Lemma str_int_inj m n : str_int m = str_int n → m = n.
Proof.
  unfold str_int. intros Heq. apply DecimalZ.to_int_inj.
  assert (Hnil : ∀ z, Z.to_int z ≠ Pos Nil ∧ Z.to_int z ≠ Neg Nil).
  { intros [|p|p]; simpl; split; try discriminate;
      intros [= H]; now apply DecimalPos.Unsigned.to_uint_nonnil in H. }
  destruct (Hnil m) as [Hm1 Hm2], (Hnil n) as [Hn1 Hn2].
  pose proof (NilZero.isi _ Hm1 Hm2) as Hm. pose proof (NilZero.isi _ Hn1 Hn2) as Hn.
  rewrite Heq in Hm. congruence.
Qed.

(** X24. The name of an export file tells its request: two requests whose
    operators, sizes or pages differ have different names, so that in one
    directory the export of one page never overwrites that of another. *)
Theorem export_name_inj o size pg o' size' pg' :
  export_name o size pg = export_name o' size' pg' →
  o = o' ∧ size = size' ∧ pg = pg'.
Proof.
  unfold export_name.
  assert (Hshape : ∀ o size pg,
    (o +:+ "_" +:+ str_int size +:+ "_" +:+ str_int pg +:+ ".jsonl")%string =
    ((o +:+ String "_" (str_int size)) +:+
       String "_" (str_int pg +:+ String "." "jsonl"))%string).
  { intros. now rewrite string_app_assoc. }
  rewrite !Hshape. intros Heq.
  apply cut_at_last in Heq as [Hhead Htail].
  - apply cut_at_last in Hhead as [-> Hsize]; [|apply str_int_plain; auto..].
    apply cut_at_first in Htail as [Hpg _]; [|apply str_int_plain; auto..].
    apply str_int_inj in Hsize, Hpg. auto.
  - rewrite occurs_app, str_int_plain by auto. reflexivity.
  - rewrite occurs_app, str_int_plain by auto. reflexivity.
Qed.

Lemma export_name_inj_witness : ("a_1"%string = "a_1"%string) ∧ 2%Z = 2%Z ∧ 3%Z = 3%Z.
Proof. apply (export_name_inj "a_1" 2 3 "a_1" 2 3). reflexivity. Defined.







